(** * ZaqApp service worker (sw.js): a shallow embedding and its properties

    The worker intercepts the requests of one origin's pages, keeps two
    versioned cache stores and serves cached content when the network is
    down.  The browser primitives the script calls (fetch, the Cache
    API, the URL parser, the console) are the collaborators of the
    script: the network, the store's acceptance of a write and the URL
    parser are taken as parameters of the development (class [Host]);
    the cache storage, the console and the lifecycle flags are explicit
    state (record [World]).  As in the store interface the script is
    written against, a lookup answers with a snapshot or with nothing, a
    write succeeds or fails, and the deletion of a store succeeds.
    Asynchronous functions are computations in a state-and-exception
    monad: [await p] is sequencing, a rejected promise is a thrown
    completion. *)

From stdpp Require Import gmap strings list fin_maps.

Local Open Scope string_scope.

(** ** Data *)

(** What [new URL(request.url)] exposes of a URL, as far as the script
    reads it. *)
Record URL := mkURL {
  protocol : string;
  hostname : string;
  origin : string
}.

(** An intercepted request: [request.url], [request.method],
    [request.mode] and [request.headers.get('accept')] ([None] is
    JavaScript's [null]). *)
Record Request := mkRequest {
  url : string;
  method : string;
  mode : string;
  accept : option string
}.

(** A response snapshot.  [clone] yields an independent duplicate, which
    for a value is the value itself. *)
Record Response := mkResponse {
  status : nat;
  statusText : string;
  headers : list (string * string);
  body : string
}.

Definition ok (r : Response) : bool :=
  (200 <=? status r)%nat && (status r <=? 299)%nat.

Definition clone (r : Response) : Response := r.

(** [new Response(body, { status, statusText, headers })]; the status
    defaults to 200 and the status text to the empty string. *)
Definition Response_new (b : string) (st : option nat) (stt : option string)
    (hs : list (string * string)) : Response :=
  {| status := default 200%nat st;
     statusText := default "" stt;
     headers := hs;
     body := b |}.

(** [JSON.stringify] on an array of already serialised elements. *)
Definition JSON_stringify_array (elems : list string) : string :=
  "[" +:+ String.concat "," elems +:+ "]".

(** What a settled [fetch] promise looks like. *)
Inductive FetchOutcome :=
  | Rejects (err : string)
  | Resolves (r : Response).

(** Request identity inside a store: method and URL. *)
Definition Key : Type := string * string.

Definition key_of (request : Request) : Key := (method request, url request).

Inductive Level := LogL | WarnL | ErrorL.

(** The worker's view of the runtime: the cache storage as the list of
    named stores in creation order, the network calls made so far, the
    console, and whether [skipWaiting] and [clients.claim] were
    called. *)
Record World := mkWorld {
  caches : list (string * gmap Key Response);
  network_calls : list Request;
  console : list (Level * list string);
  skipWaiting_called : bool;
  clients_claimed : bool
}.

Definition set_caches (cs : list (string * gmap Key Response)) (w : World) : World :=
  {| caches := cs; network_calls := network_calls w; console := console w;
     skipWaiting_called := skipWaiting_called w;
     clients_claimed := clients_claimed w |}.

Definition add_network_call (request : Request) (w : World) : World :=
  {| caches := caches w; network_calls := network_calls w ++ [request];
     console := console w; skipWaiting_called := skipWaiting_called w;
     clients_claimed := clients_claimed w |}.

Definition add_console (e : Level * list string) (w : World) : World :=
  {| caches := caches w; network_calls := network_calls w;
     console := console w ++ [e]; skipWaiting_called := skipWaiting_called w;
     clients_claimed := clients_claimed w |}.

Definition set_skipWaiting (w : World) : World :=
  {| caches := caches w; network_calls := network_calls w; console := console w;
     skipWaiting_called := true; clients_claimed := clients_claimed w |}.

Definition set_claimed (w : World) : World :=
  {| caches := caches w; network_calls := network_calls w; console := console w;
     skipWaiting_called := skipWaiting_called w; clients_claimed := true |}.

(** ** Asynchronous computations *)

Inductive Completion (A : Type) :=
  | Return (a : A)
  | Throw (err : string).
Arguments Return {A} a.
Arguments Throw {A} err.

Definition Async (A : Type) : Type := World -> Completion A * World.

Definition ret {A} (a : A) : Async A := fun w => (Return a, w).

Definition throw {A} (err : string) : Async A := fun w => (Throw err, w).

Definition bind {A B} (m : Async A) (k : A -> Async B) : Async B :=
  fun w => match m w with
           | (Return a, w') => k a w'
           | (Throw e, w') => (Throw e, w')
           end.

(** [try { m } catch (err) { h err }], also [p.catch(h)]. *)
Definition try_catch {A} (m : Async A) (h : string -> Async A) : Async A :=
  fun w => match m w with
           | (Return a, w') => (Return a, w')
           | (Throw e, w') => h e w'
           end.

Notation "'await' x <- m ;; k" := (bind m (fun x => k))
  (at level 10, x name, m at level 99, k at level 200).
Notation "'run' m ;; k" := (bind m (fun _ => k))
  (at level 10, m at level 99, k at level 200).

(** [for (const x of xs) { f x }] *)
Fixpoint for_of {A} (xs : list A) (f : A -> Async unit) : Async unit :=
  match xs with
  | [] => ret tt
  | x :: xs' => run f x ;; for_of xs' f
  end.

(** [Promise.all] over the promises of a list of computations.  Every
    computation is started (here: run, in list order) whatever the others
    do; the result rejects with the first rejection met. *)
Fixpoint Promise_all {A} (ps : list (Async A)) : Async (list A) :=
  match ps with
  | [] => ret []
  | p :: ps' =>
      fun w =>
        let '(c, w1) := p w in
        let '(cs, w2) := Promise_all ps' w1 in
        match c, cs with
        | Throw e, _ => (Throw e, w2)
        | Return _, Throw e => (Throw e, w2)
        | Return a, Return l => (Return (a :: l), w2)
        end
  end.

(** [haystack.includes(needle)] *)
Fixpoint includes (needle haystack : string) : bool :=
  String.prefix needle haystack ||
  match haystack with
  | EmptyString => false
  | String _ rest => includes needle rest
  end.

(** Truthiness of a string-or-null value: [null] and the empty string
    are falsy. *)
Definition truthy_string (s : option string) : bool :=
  match s with
  | Some s => negb (s =? "")
  | None => false
  end.

(** Lookup of a key through the stores in creation order, as
    [caches.match] does. *)
Fixpoint storage_match (cs : list (string * gmap Key Response)) (k : Key)
    : option Response :=
  match cs with
  | [] => None
  | (_, c) :: cs' =>
      match c !! k with
      | Some r => Some r
      | None => storage_match cs' k
      end
  end.

Definition has_store (name : string) (cs : list (string * gmap Key Response)) : bool :=
  existsb (fun e => fst e =? name) cs.

(** The contents of the store called [name], if it exists. *)
Fixpoint store_of (name : string) (cs : list (string * gmap Key Response))
    : option (gmap Key Response) :=
  match cs with
  | [] => None
  | (n, c) :: cs' => if n =? name then Some c else store_of name cs'
  end.

Fixpoint store_insert (name : string) (k : Key) (r : Response)
    (cs : list (string * gmap Key Response)) : list (string * gmap Key Response) :=
  match cs with
  | [] => []
  | (n, c) :: cs' =>
      if n =? name then (n, <[k := r]> c) :: cs'
      else (n, c) :: store_insert name k r cs'
  end.

Definition store_names (cs : list (string * gmap Key Response)) : list string :=
  map fst cs.

(** ** The host *)

Class Host := mkHost {
  (** how the network answers a request *)
  net : Request -> FetchOutcome;
  (** whether the store refuses to keep this response for this request
      (the script's comments: responses may not be cacheable) *)
  put_rejects : Request -> Response -> bool;
  (** [new URL(s)] *)
  URL_parse : string -> URL;
  (** [location.origin] of the worker *)
  location_origin : string;
  (** the directory of the worker script, against which relative URLs
      such as './offline.html' are resolved *)
  location_base : string
}.

(** ** Constants of the script *)

Definition CACHE_NAME : string := "zaq_myapp_v5".
Definition API_CACHE_NAME : string := "zaq_api_cache_v3".

Definition urlsToCache : list string :=
  [ "./"; "./index.html"; "./about.html"; "./contact.html"; "./main.css";
    "./manifest.json"; "./sw.js"; "./app.js"; "./images/icons/favicon.ico";
    "./images/icons/favicon.svg"; "./images/icons/site.webmanifest";
    "./offline.html" ].

Definition API_ENDPOINTS : list string :=
  [ "https://jsonplaceholder.typicode.com/posts?_limit=5" ].

Section Worker.
Context `{!Host}.

(** ** Browser primitives over the world *)

Definition resolve_url (u : string) : string :=
  if String.prefix "./" u
  then location_base +:+ String.substring 2 (String.length u - 2) u
  else u.

(** [new Request(u)], also the request a string argument of
    [caches.match] or [cache.addAll] stands for. *)
Definition Request_new (u : string) : Request :=
  {| url := resolve_url u; method := "GET"; mode := "cors"; accept := None |}.

Definition console_log (parts : list string) : Async unit :=
  fun w => (Return tt, add_console (LogL, parts) w).
Definition console_warn (parts : list string) : Async unit :=
  fun w => (Return tt, add_console (WarnL, parts) w).
Definition console_error (parts : list string) : Async unit :=
  fun w => (Return tt, add_console (ErrorL, parts) w).

Definition fetch (request : Request) : Async Response :=
  fun w =>
    match net request with
    | Rejects e => (Throw e, add_network_call request w)
    | Resolves r => (Return r, add_network_call request w)
    end.

(** [caches.match(request)]: [None] is [undefined]. *)
Definition caches_match (request : Request) : Async (option Response) :=
  fun w => (Return (storage_match (caches w) (key_of request)), w).

(** [caches.open(name)]: creates the store when it does not exist; the
    handle is the store's name. *)
Definition caches_open (name : string) : Async string :=
  fun w =>
    if has_store name (caches w) then (Return name, w)
    else (Return name, set_caches (caches w ++ [(name, ∅)]) w).

(** [cache.put(request, response)] *)
Definition cache_put (cache : string) (request : Request) (response : Response)
    : Async unit :=
  fun w =>
    if put_rejects request response then (Throw "TypeError: put", w)
    else (Return tt,
          set_caches (store_insert cache (key_of request) response (caches w)) w).

Definition caches_keys : Async (list string) :=
  fun w => (Return (store_names (caches w)), w).

(** [caches.delete(name)]: resolves to whether the store existed. *)
Definition caches_delete (name : string) : Async bool :=
  fun w =>
    (Return (has_store name (caches w)),
     set_caches (filter (fun e => fst e ≠ name) (caches w)) w).

Definition skipWaiting : Async unit := fun w => (Return tt, set_skipWaiting w).
Definition clients_claim : Async unit := fun w => (Return tt, set_claimed w).

(** ** handleApiRequest (network first) *)

(** A [try] block that may [return] from the enclosing function yields
    [Some v] for [return v] and [None] when control falls out of the
    [try] statement. *)
Definition handleApiRequest (request : Request) : Async (option Response) :=
  await returned <-
    try_catch
      (await networkResponse <- fetch request ;;
       if ok networkResponse then
         let responseClone := clone networkResponse in
         await cache <- caches_open API_CACHE_NAME ;;
         run try_catch (cache_put cache request responseClone)
               (fun err => console_warn ["ZaqApp: Unable to cache API response:"; err]) ;;
         run console_log ["ZaqApp: API request successful, cached:"; url request] ;;
         ret (Some networkResponse)
       else ret None)
      (fun error =>
         run console_log ["ZaqApp: Network request failed for API, trying cache:"; url request] ;;
         ret None) ;;
  match returned with
  | Some response => ret (Some response)
  | None =>
      await cachedResponse <- caches_match request ;;
      match cachedResponse with
      | Some cached =>
          run console_log ["ZaqApp: Serving API response from cache:"; url request] ;;
          ret (Some cached)
      | None =>
          run console_log ["ZaqApp: No cached API data available for"; url request] ;;
          ret (Some (Response_new (JSON_stringify_array []) None None
                       [("Content-Type", "application/json")]))
      end
  end.

(** ** handleNavigationRequest (cache first, offline fallback) *)

Definition handleNavigationRequest (request : Request) : Async (option Response) :=
  await returned <-
    try_catch
      (await cachedPage <- caches_match request ;;
       match cachedPage with
       | Some page => ret (Some page)
       | None =>
           await networkResponse <- fetch request ;;
           if ok networkResponse then
             let responseClone := clone networkResponse in
             await cache <- caches_open CACHE_NAME ;;
             run try_catch (cache_put cache request responseClone)
                   (fun err => console_warn ["ZaqApp: Could not cache navigation response:"; err]) ;;
             ret (Some networkResponse)
           else ret None
       end)
      (fun err =>
         run console_log ["ZaqApp: Navigation fetch failed, falling back to offline page:"; err] ;;
         ret None) ;;
  match returned with
  | Some response => ret (Some response)
  | None =>
      await fallback <- caches_match (Request_new "./offline.html") ;;
      match fallback with
      | Some page => ret (Some page)
      | None => caches_match (Request_new "./index.html")
      end
  end.

(** ** handleAppRequest (cache first, network fill) *)

(** [request.headers.get('accept') &&
     request.headers.get('accept').includes('text/html')] *)
Definition accept_includes_html (request : Request) : bool :=
  truthy_string (accept request) &&
  match accept request with
  | Some a => includes "text/html" a
  | None => false
  end.

(** Truthiness of an object, such as a function or a promise. *)
Definition truthy_object {A} (o : A) : bool := true.

(** [p || q] where [p] and [q] are the promises of two calls: the
    operator tests the promise object [p] itself, not what it settles
    to, and the call behind [q] is made only when [p] is falsy. *)
Definition promise_or {A} (p q : Async A) : Async A :=
  if truthy_object p then p else q.

Definition handleAppRequest (request : Request) : Async (option Response) :=
  await returned <-
    try_catch
      (await cachedResponse <- caches_match request ;;
       match cachedResponse with
       | Some cached => ret (Some cached)
       | None =>
           await networkResponse <- fetch request ;;
           if ok networkResponse then
             let responseClone := clone networkResponse in
             await cache <- caches_open CACHE_NAME ;;
             run try_catch (cache_put cache request responseClone)
                   (fun err => console_warn ["ZaqApp: Could not cache asset:"; err]) ;;
             ret (Some networkResponse)
           else ret None
       end)
      (fun error =>
         run console_log ["ZaqApp: Failed to fetch app content:"; error] ;;
         ret None) ;;
  match returned with
  | Some response => ret (Some response)
  | None =>
      if truthy_object (@accept) && accept_includes_html request then
        promise_or (caches_match (Request_new "./offline.html"))
                   (caches_match (Request_new "./index.html"))
      else
        ret (Some (Response_new "Offline - Service worker failed to fetch content"
                     (Some 503%nat) (Some "Service Unavailable") []))
  end.

(** ** The fetch listener *)

(** What the listener does with a fetch event: it returns without
    calling [event.respondWith], or it answers with a promise. *)
Inductive FetchHandling :=
  | notHandled
  | respondWith (p : Async (option Response)).

Definition on_fetch (request : Request) : FetchHandling :=
  let u := URL_parse (url request) in
  if (protocol u =? "chrome-extension:") || (protocol u =? "moz-extension:") then
    notHandled
  else if hostname u =? "jsonplaceholder.typicode.com" then
    respondWith (handleApiRequest request)
  else if (mode request =? "navigate") || accept_includes_html request then
    respondWith (handleNavigationRequest request)
  else if origin u =? location_origin then
    respondWith (handleAppRequest request)
  else
    respondWith
      (try_catch (await response <- fetch request ;; ret (Some response))
         (fun _ => caches_match request)).

(** ** Lifecycle: install and activate *)

(** [cache.addAll(urls)]: every URL is requested; a rejected fetch, a
    response that is not ok or one the store refuses rejects the whole
    call and nothing is stored; otherwise all the responses are
    stored. *)
Definition request_for_addAll (u : string) : Async (Request * Response) :=
  let request := Request_new u in
  await response <- fetch request ;;
  if ok response then ret (request, response)
  else throw "TypeError: Request failed".

Definition cache_addAll (cache : string) (urls : list string) : Async unit :=
  await responses <- Promise_all (map request_for_addAll urls) ;;
  if existsb (fun e => put_rejects (fst e) (snd e)) responses then
    throw "TypeError: addAll"
  else
    fun w =>
      (Return tt,
       set_caches
         (fold_left (fun cs e => store_insert cache (key_of (fst e)) (snd e) cs)
            responses (caches w)) w).

(** The two members of the array the install listener gives to
    [Promise.all]: the asset store is opened and populated, and the API
    store is opened and populated with the failure of that caught. *)
Definition precache_assets : Async unit :=
  await cache <- caches_open CACHE_NAME ;;
  run console_log ["ZaqApp: Caching app files..."] ;;
  cache_addAll cache urlsToCache.

Definition precache_api : Async unit :=
  await cache <- caches_open API_CACHE_NAME ;;
  run console_log ["ZaqApp: Caching API endpoints..."] ;;
  try_catch (cache_addAll cache API_ENDPOINTS)
    (fun err =>
       console_warn
         ["ZaqApp: Some API endpoints not cached at install (will be cached on fetch)."; err]).

(** The promise the install listener hands to [event.waitUntil].  The
    two members of the array touch different stores; they are run one
    after the other, in array order. *)
Definition on_install : Async unit :=
  run console_log ["ZaqApp: Installing service worker..."] ;;
  try_catch
    (await _ <- Promise_all [precache_assets; precache_api] ;;
     run console_log ["ZaqApp: All files cached successfully (install)"] ;;
     skipWaiting)
    (fun error => console_error ["ZaqApp: Cache failed during install:"; error]).

(** The callback the activate listener maps over the stale names. *)
Definition delete_old_cache (cacheName : string) : Async bool :=
  run console_log ["ZaqApp: Deleting old cache:"; cacheName] ;;
  caches_delete cacheName.

(** The promise the activate listener hands to [event.waitUntil]. *)
Definition on_activate : Async unit :=
  run console_log ["ZaqApp: Activating service worker..."] ;;
  try_catch
    (await cacheNames <- caches_keys ;;
     run console_log ("Found caches:" :: cacheNames) ;;
     await _ <-
       Promise_all
         (map delete_old_cache
            (filter (fun cacheName =>
                       cacheName ≠ CACHE_NAME ∧ cacheName ≠ API_CACHE_NAME)
               cacheNames)) ;;
     run console_log ["ZaqApp: Activation completed"] ;;
     clients_claim)
    (fun error => console_error ["ZaqApp: Activation failed:"; error]).

(** How the host settles a lifecycle event from the promise it was
    asked to wait for: the event succeeds when the promise fulfils and
    fails when it rejects. *)
Inductive EventOutcome := Succeeded | Failed.

Definition waitUntil {A} (p : Async A) (w : World) : EventOutcome * World :=
  match p w with
  | (Return _, w') => (Succeeded, w')
  | (Throw _, w') => (Failed, w')
  end.

Definition install_event : World -> EventOutcome * World := waitUntil on_install.
Definition activate_event : World -> EventOutcome * World := waitUntil on_activate.

(** ** Background sync *)

(** The body of the loop of [doBackgroundSync]. *)
Definition sync_endpoint (cache : string) (request : Request) : Async unit :=
  try_catch
    (await response <- fetch request ;;
     if ok response then
       run cache_put cache request (clone response) ;;
       console_log ["ZaqApp: Background sync successful for:"; url request]
     else ret tt)
    (fun error =>
       console_log ["ZaqApp: Background sync failed for:"; url request; error]).

(** The body of [doBackgroundSync] for a list of endpoints. *)
Definition doBackgroundSync_over (endpoints : list string) : Async unit :=
  try_catch
    (await cache <- caches_open API_CACHE_NAME ;;
     let requests := map Request_new endpoints in
     for_of requests (sync_endpoint cache))
    (fun error => console_error ["ZaqApp: Background sync error:"; error]).

Definition doBackgroundSync : Async unit := doBackgroundSync_over API_ENDPOINTS.

(** The sync listener: the promise handed to [event.waitUntil], if any. *)
Definition on_sync (tag : string) : option (Async unit) :=
  if tag =? "background-sync" then
    Some (run console_log ["ZaqApp: Background sync triggered"] ;; doBackgroundSync)
  else None.

(** ** The classification as the specification words it *)

Inductive RequestClass :=
  | Ignored
  | ExternalApi
  | NavigationClass
  | SameOriginAsset
  | OtherClass.

Definition browser_extension_schemes : list string :=
  ["chrome-extension:"; "moz-extension:"].

Definition api_hostname : string := "jsonplaceholder.typicode.com".

Definition html_media_type : string := "text/html".

(** The accept-hint of a request includes a media type. *)
Definition accept_hint_includes (media : string) (r : Request) : bool :=
  match accept r with
  | Some a => includes media a
  | None => false
  end.

(** The precedence list, one rule per line of the specification. *)
Definition classification_rules : list ((Request -> bool) * RequestClass) :=
  [ (fun r => bool_decide (protocol (URL_parse (url r)) ∈ browser_extension_schemes),
     Ignored);
    (fun r => bool_decide (hostname (URL_parse (url r)) = api_hostname),
     ExternalApi);
    (fun r => bool_decide (mode r = "navigate") ||
              accept_hint_includes html_media_type r,
     NavigationClass);
    (fun r => bool_decide (origin (URL_parse (url r)) = location_origin),
     SameOriginAsset) ].

Fixpoint first_match {A B} (rules : list ((A -> bool) * B)) (dflt : B) (a : A) : B :=
  match rules with
  | [] => dflt
  | (test, b) :: rules' => if test a then b else first_match rules' dflt a
  end.

Definition classify_spec (r : Request) : RequestClass :=
  first_match classification_rules OtherClass r.

(** The default strategy: network first, silent cache fallback. *)
Definition handleDefault (request : Request) : Async (option Response) :=
  try_catch (await response <- fetch request ;; ret (Some response))
    (fun _ => caches_match request).

Definition strategy_of (c : RequestClass) (request : Request) : FetchHandling :=
  match c with
  | Ignored => notHandled
  | ExternalApi => respondWith (handleApiRequest request)
  | NavigationClass => respondWith (handleNavigationRequest request)
  | SameOriginAsset => respondWith (handleAppRequest request)
  | OtherClass => respondWith (handleDefault request)
  end.

End Worker.

(** ** Auxiliary notions used in the statements *)

(** The network call of a request fails: the fetch promise rejects, or it
    resolves with a status that is not ok. *)
Definition network_failed (o : FetchOutcome) : bool :=
  match o with
  | Rejects _ => true
  | Resolves r => negb (ok r)
  end.

(** The entry of a key in the store called [name]; [None] when the
    store or the entry does not exist. *)
Definition store_entry (name : string) (cs : list (string * gmap Key Response))
    (k : Key) : option Response :=
  store_of name cs ≫= (fun c => c !! k).

(** The response the API handler synthesises. *)
Definition empty_json_response : Response :=
  {| status := 200; statusText := "";
     headers := [("Content-Type", "application/json")]; body := "[]" |}.

(** What a background sync stores for a request: the fetched response
    when it is ok and the store accepts it. *)
Definition sync_writes `{!Host} (request : Request) : option Response :=
  match net request with
  | Resolves r => if ok r && negb (put_rejects request r) then Some r else None
  | Rejects _ => None
  end.

(** The store writes a background sync performs on the storage, endpoint
    after endpoint. *)
Definition synced `{!Host} (endpoints : list string)
    (cs : list (string * gmap Key Response)) : list (string * gmap Key Response) :=
  fold_left
    (fun cs e =>
       match sync_writes (Request_new e) with
       | Some r => store_insert API_CACHE_NAME (key_of (Request_new e)) r cs
       | None => cs
       end)
    endpoints cs.

(** The storage once the store called [name] has been opened. *)
Definition opened (name : string) (cs : list (string * gmap Key Response))
    : list (string * gmap Key Response) :=
  if has_store name cs then cs else cs ++ [(name, ∅)].

(** A computation leaves the [skipWaiting] flag as it found it. *)
Definition keeps_waiting {A} (m : Async A) : Prop :=
  ∀ w, skipWaiting_called (snd (m w)) = skipWaiting_called w.

(** A store name is one of the two current version tokens. *)
Definition current_store (name : string) : Prop :=
  name = CACHE_NAME ∨ name = API_CACHE_NAME.

#[global] Instance current_store_dec (name : string) : Decision (current_store name).
Proof. unfold current_store. apply _. Defined.

(** ** Concrete scenarios *)

Module Scenario.

Definition app_origin : string := "https://zaq.example".

(** A URL parser good enough for the URLs of the scenarios. *)
Definition parse (s : string) : URL :=
  if String.prefix "chrome-extension://" s then
    mkURL "chrome-extension:" "abcdef" "chrome-extension://abcdef"
  else if String.prefix "https://jsonplaceholder.typicode.com/" s then
    mkURL "https:" "jsonplaceholder.typicode.com"
      "https://jsonplaceholder.typicode.com"
  else if String.prefix "https://zaq.example/" s then
    mkURL "https:" "zaq.example" app_origin
  else mkURL "https:" "cdn.example" "https://cdn.example".

Definition index_page : Response :=
  mkResponse 200 "OK" [("Content-Type", "text/html")] "<html>index</html>".
Definition offline_page : Response :=
  mkResponse 200 "OK" [("Content-Type", "text/html")] "<html>offline</html>".
Definition old_posts : Response :=
  mkResponse 200 "OK" [("Content-Type", "application/json")] "[{'id':1}]".
Definition new_posts : Response :=
  mkResponse 200 "OK" [("Content-Type", "application/json")] "[{'id':1},{'id':2}]".
Definition partial_posts : Response :=
  mkResponse 206 "Partial Content" [("Content-Type", "application/json")] "[{'id':1},".
Definition old_users : Response :=
  mkResponse 200 "OK" [("Content-Type", "application/json")] "[{'name':'a'}]".

Definition posts_url : string := "https://jsonplaceholder.typicode.com/posts?_limit=5".
Definition users_url : string := "https://jsonplaceholder.typicode.com/users".

(** The network is down and the store accepts every write. *)
Definition down : Host :=
  {| net := fun _ => Rejects "TypeError: Failed to fetch";
     put_rejects := fun _ _ => false;
     URL_parse := parse;
     location_origin := app_origin;
     location_base := "https://zaq.example/" |}.

(** The posts endpoint answers with fresh data, everything else is
    unreachable. *)
Definition posts_up : Host :=
  {| net := fun r => if url r =? posts_url then Resolves new_posts
                     else Rejects "TypeError: Failed to fetch";
     put_rejects := fun _ _ => false;
     URL_parse := parse;
     location_origin := app_origin;
     location_base := "https://zaq.example/" |}.

(** The posts endpoint answers 206 Partial Content, a status that is ok
    and that the store refuses to keep; everything else is
    unreachable. *)
Definition posts_partial : Host :=
  {| net := fun r => if url r =? posts_url then Resolves partial_posts
                     else Rejects "TypeError: Failed to fetch";
     put_rejects := fun _ r => (status r =? 206)%nat;
     URL_parse := parse;
     location_origin := app_origin;
     location_base := "https://zaq.example/" |}.

Definition world_of (cs : list (string * gmap Key Response)) : World :=
  {| caches := cs; network_calls := []; console := [];
     skipWaiting_called := false; clients_claimed := false |}.

Definition fresh : World := world_of [].

(** The asset store holds the index page and no offline page. *)
Definition index_only : World :=
  world_of [(CACHE_NAME, {[ ("GET", "https://zaq.example/index.html") := index_page ]})].

(** The asset store holds the offline page and the index page. *)
Definition offline_and_index : World :=
  world_of
    [(CACHE_NAME,
      <[ ("GET", "https://zaq.example/offline.html") := offline_page ]>
        {[ ("GET", "https://zaq.example/index.html") := index_page ]})].

(** The API store holds earlier answers of both endpoints. *)
Definition api_cached : World :=
  world_of
    [(CACHE_NAME, ∅);
     (API_CACHE_NAME,
      <[ ("GET", posts_url) := old_posts ]> {[ ("GET", users_url) := old_users ]})].

(** The stores found after an upgrade from the previous versions. *)
Definition upgraded : World :=
  world_of
    [("zaq_myapp_v4", {[ ("GET", "https://zaq.example/index.html") := offline_page ]});
     ("zaq_api_cache_v2", {[ ("GET", posts_url) := old_posts ]});
     (CACHE_NAME, {[ ("GET", "https://zaq.example/index.html") := index_page ]});
     (API_CACHE_NAME, {[ ("GET", posts_url) := new_posts ]})].

Definition page_request : Request :=
  mkRequest "https://zaq.example/missing.html" "GET" "navigate"
    (Some "text/html,application/xhtml+xml").
Definition index_request : Request :=
  mkRequest "https://zaq.example/index.html" "GET" "navigate"
    (Some "text/html,application/xhtml+xml").
Definition image_request : Request :=
  mkRequest "https://zaq.example/logo.png" "GET" "no-cors" (Some "image/png,*/*").
Definition html_asset_request : Request :=
  mkRequest "https://zaq.example/partial.html" "GET" "cors" (Some "text/html").
Definition posts_request : Request :=
  mkRequest posts_url "GET" "cors" (Some "application/json").

End Scenario.

(** ** Further notions and scenarios *)

(** No store other than the one called [name] holds an entry for [k]. *)
Definition held_only_by (name : string) (k : Key)
    (cs : list (string * gmap Key Response)) : Prop :=
  Forall (λ e, fst e = name ∨ snd e !! k = None) cs.

(** What [cache.addAll] stores for a URL when its request is answered
    with an ok response. *)
Definition fetched_ok `{!Host} (u : string) : option Response :=
  match net (Request_new u) with
  | Resolves r => if ok r then Some r else None
  | Rejects _ => None
  end.

(** The URL can be stored by [cache.addAll]: its request is answered with
    an ok response that the store accepts. *)
Definition storable `{!Host} (u : string) : bool :=
  match fetched_ok u with
  | Some r => negb (put_rejects (Request_new u) r)
  | None => false
  end.

Module Online.

Definition missing_page : Response :=
  mkResponse 200 "OK" [("Content-Type", "text/html")] "<html>missing</html>".
Definition logo : Response :=
  mkResponse 200 "OK" [("Content-Type", "image/png")] "PNG".
Definition not_found : Response :=
  mkResponse 404 "Not Found" [] "no such file".

(** The site and the posts endpoint answer; a third-party file is
    answered with 404; the store accepts every write. *)
Definition site_up : Host :=
  {| net := fun r =>
       if url r =? "https://zaq.example/missing.html" then Resolves missing_page
       else if url r =? "https://zaq.example/logo.png" then Resolves logo
       else if url r =? Scenario.posts_url then Resolves Scenario.new_posts
       else if url r =? "https://cdn.example/lib.js" then Resolves not_found
       else Rejects "TypeError: Failed to fetch";
     put_rejects := fun _ _ => false;
     URL_parse := Scenario.parse;
     location_origin := Scenario.app_origin;
     location_base := "https://zaq.example/" |}.

(** Every file of the site is served, each with its URL as body; the API
    host is unreachable. *)
Definition assets_up : Host :=
  {| net := fun r =>
       if String.prefix "https://zaq.example/" (url r)
       then Resolves (mkResponse 200 "OK" [] (url r))
       else Rejects "TypeError: Failed to fetch";
     put_rejects := fun _ _ => false;
     URL_parse := Scenario.parse;
     location_origin := Scenario.app_origin;
     location_base := "https://zaq.example/" |}.

Definition logo_request : Request :=
  mkRequest "https://zaq.example/logo.png" "GET" "no-cors" (Some "image/png,*/*").
Definition library_request : Request :=
  mkRequest "https://cdn.example/lib.js" "GET" "no-cors" (Some "*/*").
Definition font_request : Request :=
  mkRequest "https://cdn.example/font.woff" "GET" "no-cors" (Some "*/*").
Definition extension_request : Request :=
  mkRequest "chrome-extension://abcdef/jsonplaceholder" "GET" "navigate"
    (Some "text/html").

(** The asset store holds the logo. *)
Definition logo_cached : World :=
  Scenario.world_of
    [(CACHE_NAME, {[ ("GET", "https://zaq.example/logo.png") := logo ]})].

End Online.

(** ** Properties of the handlers *)

Section HandlerProperties.
Context `{!Host}.

Ltac run_async :=
  cbv beta delta [bind try_catch ret throw fetch caches_match caches_open
                  cache_put console_log console_warn console_error] iota.

Lemma network_failed_cases (o : FetchOutcome) :
  network_failed o = true →
  (∃ err, o = Rejects err) ∨ (∃ r, o = Resolves r ∧ ok r = false).
Proof.
  destruct o as [err|r]; simpl; intros Hfail.
  - left. by exists err.
  - right. exists r. split; [done | by apply negb_true_iff].
Qed.

Lemma accept_includes_html_spec (request : Request) :
  accept_includes_html request = accept_hint_includes html_media_type request.
Proof.
  unfold accept_includes_html, accept_hint_includes, truthy_string.
  destruct (accept request) as [[|c a]|]; reflexivity.
Qed.

Lemma extension_scheme_spec (p : string) :
  bool_decide (p ∈ browser_extension_schemes)
  = (p =? "chrome-extension:") || (p =? "moz-extension:").
Proof.
  unfold browser_extension_schemes.
  destruct (String.eqb_spec p "chrome-extension:") as [->|Hc].
  { apply bool_decide_eq_true, list_elem_of_here. }
  destruct (String.eqb_spec p "moz-extension:") as [->|Hm].
  { apply bool_decide_eq_true, list_elem_of_further, list_elem_of_here. }
  apply bool_decide_eq_false.
  rewrite !elem_of_cons, elem_of_nil. tauto.
Qed.

Lemma bool_decide_string_eqb (a b : string) : bool_decide (a = b) = (a =? b).
Proof.
  destruct (String.eqb_spec a b) as [->|Hne].
  - by apply bool_decide_eq_true.
  - by apply bool_decide_eq_false.
Qed.

(** *** External API requests *)

Lemma handleApiRequest_on_failure (request : Request) (w : World) :
  network_failed (net request) = true →
  ∃ w', handleApiRequest request w =
          (Return (Some (default empty_json_response
                           (storage_match (caches w) (key_of request)))), w')
        ∧ caches w' = caches w.
Proof.
  intros Hfail. unfold handleApiRequest. run_async.
  destruct (net request) as [err|response]; simpl in Hfail.
  - simpl. destruct (storage_match (caches w) (key_of request)); simpl; eauto.
  - apply negb_true_iff in Hfail. rewrite Hfail. simpl.
    destruct (storage_match (caches w) (key_of request)); simpl; eauto.
Qed.

(** Whatever the network and the store do, the handler resolves with a
    response. *)
Lemma handleApiRequest_total (request : Request) (w : World) :
  ∃ response w', handleApiRequest request w = (Return (Some response), w').
Proof.
  destruct (network_failed (net request)) eqn:Hfail.
  - destruct (handleApiRequest_on_failure request w Hfail) as (w' & Hrun & _).
    eauto.
  - unfold handleApiRequest. run_async.
    destruct (net request) as [err|response]; simpl in Hfail; [done|].
    apply negb_false_iff in Hfail. rewrite Hfail. simpl.
    destruct (has_store API_CACHE_NAME (caches w));
      destruct (put_rejects request (clone response)); simpl; eauto.
Qed.

(** C2: when the network call of an API request throws or answers with
    a status that is not ok, the handler looks the request up in the
    cache storage; a cached snapshot is returned as it is, and without
    one the handler returns a synthesised response whose body is the
    empty JSON array and whose Content-Type is application/json.  In
    both cases the handler resolves with a response: there is no hard
    failure. *)
Theorem handleApiRequest_failure_falls_back (request : Request) (w : World)
    (Hfail : network_failed (net request) = true) :
  (∀ cached, storage_match (caches w) (key_of request) = Some cached →
     fst (handleApiRequest request w) = Return (Some cached)) ∧
  (storage_match (caches w) (key_of request) = None →
     ∃ response, fst (handleApiRequest request w) = Return (Some response) ∧
                 body response = "[]" ∧
                 headers response = [("Content-Type", "application/json")]) ∧
  (∃ response, fst (handleApiRequest request w) = Return (Some response)).
Proof.
  destruct (handleApiRequest_on_failure request w Hfail) as (w' & Hrun & _).
  rewrite Hrun. simpl. split; [|split].
  - intros cached ->. reflexivity.
  - intros ->. exists empty_json_response. done.
  - eauto.
Qed.

(** C10: on the failure path of the API handler (the network call
    throws, or resolves with a status that is not ok) no store is
    written: the cache storage after the handler has run is the cache
    storage before. *)
Theorem handleApiRequest_failure_writes_nothing (request : Request) (w : World)
    (Hfail : network_failed (net request) = true) :
  caches (snd (handleApiRequest request w)) = caches w.
Proof.
  destruct (handleApiRequest_on_failure request w Hfail) as (w' & Hrun & Hsame).
  by rewrite Hrun.
Qed.

(** *** Navigation requests *)

(** C4: a navigation request that has an entry in the cache storage is
    answered with that snapshot, the world is left as it was, and in
    particular no network call is made. *)
Theorem handleNavigationRequest_cache_hit (request : Request) (w : World)
    (cached : Response)
    (Hhit : storage_match (caches w) (key_of request) = Some cached) :
  handleNavigationRequest request w = (Return (Some cached), w) ∧
  network_calls (snd (handleNavigationRequest request w)) = network_calls w.
Proof.
  assert (handleNavigationRequest request w = (Return (Some cached), w)) as Hrun.
  { unfold handleNavigationRequest. run_async. by rewrite Hhit. }
  by rewrite Hrun.
Qed.

Lemma handleNavigationRequest_on_failure (request : Request) (w : World) :
  storage_match (caches w) (key_of request) = None →
  network_failed (net request) = true →
  fst (handleNavigationRequest request w) =
    Return (match storage_match (caches w) (key_of (Request_new "./offline.html")) with
            | Some page => Some page
            | None => storage_match (caches w) (key_of (Request_new "./index.html"))
            end).
Proof.
  intros Hmiss Hfail. unfold handleNavigationRequest. run_async. rewrite Hmiss.
  destruct (network_failed_cases _ Hfail) as [[err ->]|(r & -> & ->)]; simpl;
    destruct (storage_match (caches w) (key_of (Request_new "./offline.html")));
    reflexivity.
Qed.

(** C5: a navigation request with no entry in the cache storage and a
    failing network call (a throw, or an answer that is not ok) is
    answered with the offline page when that is cached, and with the
    index page when the offline page is absent and the index page is
    cached. *)
Theorem handleNavigationRequest_offline_chain (request : Request) (w : World)
    (Hmiss : storage_match (caches w) (key_of request) = None)
    (Hfail : network_failed (net request) = true) :
  (∀ page,
     storage_match (caches w) (key_of (Request_new "./offline.html")) = Some page →
     fst (handleNavigationRequest request w) = Return (Some page)) ∧
  (storage_match (caches w) (key_of (Request_new "./offline.html")) = None →
   ∀ page,
     storage_match (caches w) (key_of (Request_new "./index.html")) = Some page →
     fst (handleNavigationRequest request w) = Return (Some page)).
Proof.
  rewrite (handleNavigationRequest_on_failure request w Hmiss Hfail). split.
  - by intros page ->.
  - by intros -> page ->.
Qed.

(** *** Same-origin asset requests *)

Lemma handleAppRequest_on_failure (request : Request) (w : World) :
  storage_match (caches w) (key_of request) = None →
  network_failed (net request) = true →
  fst (handleAppRequest request w) =
    if accept_hint_includes html_media_type request
    then Return (storage_match (caches w) (key_of (Request_new "./offline.html")))
    else Return (Some (Response_new
                         "Offline - Service worker failed to fetch content"
                         (Some 503) (Some "Service Unavailable") [])).
Proof.
  intros Hmiss Hfail. unfold handleAppRequest. run_async. rewrite Hmiss.
  rewrite accept_includes_html_spec.
  destruct (network_failed_cases _ Hfail) as [[err ->]|(r & -> & ->)]; simpl;
    destruct (accept_hint_includes html_media_type request); reflexivity.
Qed.

(** C8: a same-origin asset request with no entry in the cache storage,
    a failing network call and an accept-hint that does not include
    text/html is answered with status 503 and the fixed body. *)
Theorem handleAppRequest_terminal_503 (request : Request) (w : World)
    (Hmiss : storage_match (caches w) (key_of request) = None)
    (Hfail : network_failed (net request) = true)
    (Hhint : accept_hint_includes html_media_type request = false) :
  ∃ response,
    fst (handleAppRequest request w) = Return (Some response) ∧
    status response = 503 ∧
    body response = "Offline - Service worker failed to fetch content".
Proof.
  rewrite (handleAppRequest_on_failure request w Hmiss Hfail), Hhint.
  eexists. split; [reflexivity|]. done.
Qed.

(** X12: With an HTML accept-hint the asset handler answers with whatever
    the lookup of the offline page gives, [undefined] included: the
    index page is never consulted. *)
Lemma handleAppRequest_html_fallback (request : Request) (w : World) :
  storage_match (caches w) (key_of request) = None →
  network_failed (net request) = true →
  accept_hint_includes html_media_type request = true →
  fst (handleAppRequest request w) =
    Return (storage_match (caches w) (key_of (Request_new "./offline.html"))).
Proof.
  intros Hmiss Hfail Hhint.
  by rewrite (handleAppRequest_on_failure request w Hmiss Hfail), Hhint.
Qed.

(** *** The fetch listener *)

(** C7: the listener treats a request as the precedence list says,
    first match winning: a browser-extension scheme is not handled; else
    the API hostname selects the API handler; else navigation mode or an
    accept-hint including text/html selects the navigation handler; else
    the page's own origin selects the asset handler; else the default
    strategy answers. *)
Theorem on_fetch_follows_precedence (request : Request) :
  on_fetch request = strategy_of (classify_spec request) request.
Proof.
  unfold on_fetch, classify_spec, classification_rules, first_match.
  rewrite extension_scheme_spec, !bool_decide_string_eqb,
    <- accept_includes_html_spec.
  unfold api_hostname.
  destruct (_ || _); [reflexivity|].
  destruct (hostname _ =? _); [reflexivity|].
  destruct (_ || _); [reflexivity|].
  destruct (origin _ =? _); reflexivity.
Qed.

(** The asset handler is never handed a request whose accept-hint
    includes text/html by the listener: such a request is a navigation
    (or an API request, or not handled). *)
Lemma on_fetch_html_hint_not_asset (request : Request) :
  accept_hint_includes html_media_type request = true →
  classify_spec request ≠ SameOriginAsset.
Proof.
  intros Hhint. unfold classify_spec, classification_rules, first_match.
  rewrite Hhint, orb_true_r.
  repeat case_match; done.
Qed.


End HandlerProperties.

(** ** Properties of the lifecycle listeners *)

Section ActivateProperties.

Lemma filter_ext_in {A} (P Q : A → Prop) `{!∀ x, Decision (P x), !∀ x, Decision (Q x)}
    (l : list A) :
  (∀ x, x ∈ l → (P x ↔ Q x)) → filter P l = filter Q l.
Proof.
  induction l as [|a l IH]; intros Hext; [done|].
  rewrite !filter_cons.
  rewrite IH by (intros x Hx; apply Hext; by right).
  apply decide_ext, Hext. by left.
Qed.

Lemma store_names_filter (P : string → Prop) `{!∀ n, Decision (P n)}
    (cs : list (string * gmap Key Response)) :
  store_names (filter (λ e, P (fst e)) cs) = filter P (store_names cs).
Proof.
  unfold store_names. induction cs as [|[n c] cs IH]; [done|].
  rewrite filter_cons. simpl. rewrite filter_cons.
  destruct (decide (P n)); simpl; by rewrite IH.
Qed.

(** Deleting a list of stores one after the other removes the stores
    with these names and nothing else, and does not reject. *)
Lemma delete_all (names : list string) (w : World) :
  ∃ results w',
    Promise_all (map delete_old_cache names) w = (Return results, w')
    ∧ caches w' = filter (λ e, fst e ∉ names) (caches w).
Proof.
  revert w. induction names as [|n names IH]; intros w.
  - exists [], w. split; [done|]. simpl.
    symmetry. induction (caches w) as [|e cs IHcs]; [done|].
    rewrite filter_cons_True by apply not_elem_of_nil. by rewrite IHcs.
  - cbn [map Promise_all].
    set (w1 := add_console (LogL, ["ZaqApp: Deleting old cache:"; n]) w).
    destruct (IH (set_caches (filter (λ e, fst e ≠ n) (caches w1)) w1))
      as (results & w' & Hrun & Hcaches).
    unfold delete_old_cache at 1, bind at 1, console_log at 1, caches_delete at 1.
    fold w1.
    rewrite Hrun. eexists _, w'. split; [reflexivity|].
    rewrite Hcaches. simpl. rewrite list_filter_filter.
    apply list_filter_iff. intros e. rewrite not_elem_of_cons. tauto.
Qed.

Lemma on_activate_caches (w : World) :
  ∃ w', on_activate w = (Return tt, w')
        ∧ caches w' = filter (λ e, current_store (fst e)) (caches w)
        ∧ clients_claimed w' = true.
Proof.
  unfold on_activate.
  cbv beta delta [bind try_catch ret console_log caches_keys clients_claim] iota.
  match goal with
  | |- context [Promise_all (map ?f ?ns) ?w0] =>
      destruct (delete_all ns w0) as (results & w1 & Hrun & Hcaches)
  end.
  rewrite Hrun. eexists. split; [reflexivity|]. split; [|reflexivity].
  simpl. rewrite Hcaches. simpl.
  apply filter_ext_in. intros e He.
  rewrite list_elem_of_filter. unfold current_store, store_names.
  assert (fst e ∈ map fst (caches w)) by (by apply list_elem_of_fmap_2).
  destruct (decide (fst e = CACHE_NAME)), (decide (fst e = API_CACHE_NAME));
    tauto.
Qed.

(** C6: activation deletes exactly the stores whose name is neither of
    the two current version tokens: what remains of the storage is the
    stores with a current name, in their order and with their contents.
    After an upgrade from the previous versions, the two old stores are
    deleted and the two current ones are left as they were. *)
Theorem activate_purges_stale_stores :
  (∀ w,
     fst (activate_event w) = Succeeded ∧
     caches (snd (activate_event w))
       = filter (λ e, current_store (fst e)) (caches w) ∧
     store_names (caches (snd (activate_event w)))
       = filter current_store (store_names (caches w))) ∧
  store_names (caches Scenario.upgraded)
    = ["zaq_myapp_v4"; "zaq_api_cache_v2"; CACHE_NAME; API_CACHE_NAME] ∧
  caches (snd (activate_event Scenario.upgraded))
    = drop 2 (caches Scenario.upgraded).
Proof.
  split; [|split; vm_compute; reflexivity].
  intros w. unfold activate_event, waitUntil.
  destruct (on_activate_caches w) as (w' & -> & Hcaches & _). simpl.
  split; [done|]. split; [done|].
  rewrite Hcaches. apply store_names_filter.
Qed.

End ActivateProperties.

Section InstallProperties.
Context `{!Host}.

Lemma keeps_waiting_ret {A} (a : A) : keeps_waiting (ret a).
Proof. by intros w. Qed.

Lemma keeps_waiting_throw {A} (err : string) : keeps_waiting (@throw A err).
Proof. by intros w. Qed.

Lemma keeps_waiting_bind {A B} (m : Async A) (k : A → Async B) :
  keeps_waiting m → (∀ a, keeps_waiting (k a)) → keeps_waiting (bind m k).
Proof.
  intros Hm Hk w. unfold bind. specialize (Hm w).
  destruct (m w) as [[a|err] w1]; simpl in *; [|done].
  by rewrite Hk.
Qed.

Lemma keeps_waiting_try_catch {A} (m : Async A) (h : string → Async A) :
  keeps_waiting m → (∀ err, keeps_waiting (h err)) → keeps_waiting (try_catch m h).
Proof.
  intros Hm Hh w. unfold try_catch. specialize (Hm w).
  destruct (m w) as [[a|err] w1]; simpl in *; [done|].
  by rewrite Hh.
Qed.

Lemma keeps_waiting_Promise_all {A} (ps : list (Async A)) :
  Forall keeps_waiting ps → keeps_waiting (Promise_all ps).
Proof.
  induction 1 as [|p ps Hp _ IH]; intros w; [done|].
  cbn [Promise_all]. specialize (Hp w).
  destruct (p w) as [c w1]. specialize (IH w1).
  destruct (Promise_all ps w1) as [cs w2]. simpl in *.
  destruct c, cs; simpl; congruence.
Qed.

Lemma keeps_waiting_console_log (parts : list string) :
  keeps_waiting (console_log parts).
Proof. by intros w. Qed.

Lemma keeps_waiting_console_warn (parts : list string) :
  keeps_waiting (console_warn parts).
Proof. by intros w. Qed.

Lemma keeps_waiting_fetch (request : Request) : keeps_waiting (fetch request).
Proof. intros w. unfold fetch. by destruct (net request). Qed.

Lemma keeps_waiting_caches_open (name : string) : keeps_waiting (caches_open name).
Proof. intros w. unfold caches_open. by destruct (has_store name (caches w)). Qed.

Lemma keeps_waiting_cache_addAll (cache : string) (urls : list string) :
  keeps_waiting (cache_addAll cache urls).
Proof.
  unfold cache_addAll. apply keeps_waiting_bind.
  - apply keeps_waiting_Promise_all, Forall_forall. intros p Hp.
    apply list_elem_of_fmap in Hp as (u & -> & _). unfold request_for_addAll.
    apply keeps_waiting_bind; [apply keeps_waiting_fetch|].
    intros response. destruct (ok response);
      [apply keeps_waiting_ret | apply keeps_waiting_throw].
  - intros responses. destruct (existsb _ responses);
      [apply keeps_waiting_throw | by intros w].
Qed.

Lemma keeps_waiting_precache_assets : keeps_waiting precache_assets.
Proof.
  unfold precache_assets.
  apply keeps_waiting_bind; [apply keeps_waiting_caches_open|]. intros cache.
  apply keeps_waiting_bind; [apply keeps_waiting_console_log|]. intros _.
  apply keeps_waiting_cache_addAll.
Qed.

Lemma keeps_waiting_precache_api : keeps_waiting precache_api.
Proof.
  unfold precache_api.
  apply keeps_waiting_bind; [apply keeps_waiting_caches_open|]. intros cache.
  apply keeps_waiting_bind; [apply keeps_waiting_console_log|]. intros _.
  apply keeps_waiting_try_catch; [apply keeps_waiting_cache_addAll|].
  intros err. apply keeps_waiting_console_warn.
Qed.

(** Populating the API store never rejects: its failure is caught. *)
Lemma precache_api_fulfils (w : World) : ∃ w', precache_api w = (Return tt, w').
Proof.
  unfold precache_api.
  cbv beta delta [bind try_catch caches_open console_log console_warn] iota.
  destruct (has_store API_CACHE_NAME (caches w)); simpl;
    match goal with
    | |- context [cache_addAll ?c ?us ?w0] =>
        destruct (cache_addAll c us w0) as [[[]|err] w1]
    end; eauto.
Qed.

(** One URL of the list whose network call fails is enough for
    [cache.addAll] to reject, in whatever world it is called. *)
Lemma cache_addAll_rejects (cache : string) (urls : list string) (u : string) :
  u ∈ urls → network_failed (net (Request_new u)) = true →
  ∀ w, ∃ err, fst (cache_addAll cache urls w) = Throw err.
Proof.
  intros Hin Hfail.
  assert (∀ w, ∃ err w',
            Promise_all (map request_for_addAll urls) w = (Throw err, w')) as Hall.
  { induction Hin as [u urls|u u0 urls Hin IH]; intros w; cbn [map Promise_all].
    - assert (∃ err w1, request_for_addAll u w = (Throw err, w1))
        as (err & w1 & ->).
      { unfold request_for_addAll, bind, fetch, ret, throw.
        destruct (network_failed_cases _ Hfail) as [[err ->]|(r & -> & ->)]; eauto. }
      destruct (Promise_all _ w1) as [cs w2]. eauto.
    - destruct (request_for_addAll u0 w) as [c w1].
      destruct (IH Hfail w1) as (err & w2 & ->). destruct c; eauto. }
  intros w. unfold cache_addAll, bind.
  destruct (Hall w) as (err & w' & ->). eauto.
Qed.

Lemma precache_assets_rejects (u : string) :
  u ∈ urlsToCache → network_failed (net (Request_new u)) = true →
  ∀ w, ∃ err, fst (precache_assets w) = Throw err.
Proof.
  intros Hin Hfail w. unfold precache_assets.
  unfold bind at 1, caches_open at 1.
  destruct (has_store CACHE_NAME (caches w));
    unfold bind at 1, console_log at 1;
    match goal with
    | |- context [cache_addAll ?c ?us ?w0] =>
        destruct (cache_addAll_rejects c us u Hin Hfail w0) as (err & Herr);
        destruct (cache_addAll c us w0) as [res w1]
    end; simpl in Herr; subst res; eauto.
Qed.

Lemma on_install_on_failure (w : World) (err : string) :
  fst (precache_assets
         (add_console (LogL, ["ZaqApp: Installing service worker..."]) w))
    = Throw err →
  ∃ w', on_install w
          = (Return tt,
             add_console (ErrorL, ["ZaqApp: Cache failed during install:"; err]) w')
        ∧ skipWaiting_called w' = skipWaiting_called w.
Proof.
  intros Hfail. unfold on_install.
  unfold bind at 1, console_log at 1, try_catch at 1, bind at 1.
  cbn [Promise_all].
  set (w1 := add_console (LogL, ["ZaqApp: Installing service worker..."]) w) in *.
  pose proof (keeps_waiting_precache_assets w1) as Hkeep1.
  destruct (precache_assets w1) as [c w2]. simpl in Hfail, Hkeep1. subst c.
  pose proof (keeps_waiting_precache_api w2) as Hkeep2.
  destruct (precache_api_fulfils w2) as (w3 & Hrun). rewrite Hrun in *.
  simpl in *. exists w3. split; [reflexivity | congruence].
Qed.

(** C1, as the script has it: when populating the asset store fails
    during install, the listener catches the failure and logs it.
    [skipWaiting] is not called, so readiness to replace the previous
    instance is not signalled; the promise handed to the host fulfils
    all the same, so the install event succeeds and the host is told of
    no failure. *)
Theorem install_absorbs_precache_failure (w : World) (err : string)
    (Hfail : fst (precache_assets
                    (add_console (LogL, ["ZaqApp: Installing service worker..."]) w))
             = Throw err) :
  fst (install_event w) = Succeeded ∧
  skipWaiting_called (snd (install_event w)) = skipWaiting_called w ∧
  last (console (snd (install_event w)))
    = Some (ErrorL, ["ZaqApp: Cache failed during install:"; err]).
Proof.
  unfold install_event, waitUntil.
  destruct (on_install_on_failure w err Hfail) as (w' & -> & Hkeep). simpl.
  split; [done|]. split; [done|]. apply last_snoc.
Qed.

End InstallProperties.

(** ** Properties of the background sync *)

Section SyncProperties.
Context `{!Host}.

Lemma store_of_insert (name : string) (k : Key) (r : Response)
    (cs : list (string * gmap Key Response)) :
  store_of name (store_insert name k r cs) = (λ c, <[k := r]> c) <$> store_of name cs.
Proof.
  induction cs as [|[n c] cs IH]; [done|]. simpl.
  destruct (n =? name) eqn:Hn; simpl; rewrite Hn; [done | apply IH].
Qed.

Lemma has_store_store_of (name : string) (cs : list (string * gmap Key Response)) :
  has_store name cs = true ↔ is_Some (store_of name cs).
Proof.
  unfold has_store. induction cs as [|[n c] cs IH]; simpl.
  - split; [done | by intros [? ?]].
  - destruct (n =? name); simpl; [split; eauto | apply IH].
Qed.

Lemma has_store_insert (name : string) (k : Key) (r : Response)
    (cs : list (string * gmap Key Response)) :
  has_store name (store_insert name k r cs) = true ↔ has_store name cs = true.
Proof.
  rewrite !has_store_store_of, store_of_insert. apply fmap_is_Some.
Qed.

Lemma store_entry_insert_eq (name : string) (k : Key) (r : Response)
    (cs : list (string * gmap Key Response)) :
  has_store name cs = true →
  store_entry name (store_insert name k r cs) k = Some r.
Proof.
  intros [c Hc]%has_store_store_of. unfold store_entry.
  rewrite store_of_insert, Hc. simpl. apply lookup_insert_eq.
Qed.

Lemma store_entry_insert_ne (name : string) (k k' : Key) (r : Response)
    (cs : list (string * gmap Key Response)) :
  k ≠ k' →
  store_entry name (store_insert name k r cs) k' = store_entry name cs k'.
Proof.
  intros Hne. unfold store_entry. rewrite store_of_insert.
  destruct (store_of name cs) as [c|]; simpl; [|done].
  by apply lookup_insert_ne.
Qed.

Lemma store_entry_has_store (name : string) (k : Key) (r : Response)
    (cs : list (string * gmap Key Response)) :
  store_entry name cs k = Some r → has_store name cs = true.
Proof.
  unfold store_entry. intros Hentry. apply has_store_store_of.
  destruct (store_of name cs); [eauto | done].
Qed.

Lemma has_store_opened (name : string) (cs : list (string * gmap Key Response)) :
  has_store name (opened name cs) = true.
Proof.
  unfold opened. destruct (has_store name cs) eqn:Hhas; [done|].
  unfold has_store. rewrite existsb_app. simpl.
  by rewrite String.eqb_refl, orb_true_r.
Qed.

Lemma store_entry_opened (name : string) (k : Key)
    (cs : list (string * gmap Key Response)) :
  store_entry name (opened name cs) k = store_entry name cs k.
Proof.
  unfold opened. destruct (has_store name cs) eqn:Hhas; [done|].
  unfold store_entry, has_store in *.
  induction cs as [|[n c] cs IH]; simpl in *.
  - by rewrite String.eqb_refl.
  - destruct (n =? name); [done | by apply IH].
Qed.

(** Two requests made from endpoint URLs that have the same store key
    are the same request. *)
Lemma Request_new_key_inj (a b : string) :
  key_of (Request_new a) = key_of (Request_new b) → Request_new a = Request_new b.
Proof. unfold key_of, Request_new. simpl. by intros [= ->]. Qed.

(** One turn of the loop never throws, and writes what [sync_writes]
    says. *)
Lemma sync_endpoint_run (request : Request) (w : World) :
  ∃ w', sync_endpoint API_CACHE_NAME request w = (Return tt, w')
        ∧ caches w' = match sync_writes request with
                      | Some r => store_insert API_CACHE_NAME (key_of request) r (caches w)
                      | None => caches w
                      end.
Proof.
  unfold sync_endpoint, sync_writes.
  cbv beta delta [bind try_catch ret fetch cache_put console_log clone] iota.
  destruct (net request) as [err|r]; [eauto|].
  destruct (ok r); simpl; [|eauto].
  destruct (put_rejects request r); simpl; eauto.
Qed.

Lemma sync_loop_run (endpoints : list string) (w : World) :
  ∃ w', for_of (map Request_new endpoints) (sync_endpoint API_CACHE_NAME) w
          = (Return tt, w')
        ∧ caches w' = synced endpoints (caches w).
Proof.
  revert w. induction endpoints as [|e es IH]; intros w; [by exists w|].
  cbn [map for_of]. unfold bind at 1.
  destruct (sync_endpoint_run (Request_new e) w) as (w1 & -> & Hw1).
  destruct (IH w1) as (w2 & -> & Hw2). exists w2. split; [done|].
  rewrite Hw2, Hw1. reflexivity.
Qed.

Lemma doBackgroundSync_over_run (endpoints : list string) (w : World) :
  ∃ w', doBackgroundSync_over endpoints w = (Return tt, w')
        ∧ caches w' = synced endpoints (opened API_CACHE_NAME (caches w)).
Proof.
  unfold doBackgroundSync_over, try_catch, bind at 1, caches_open, opened.
  destruct (has_store API_CACHE_NAME (caches w));
    match goal with
    | |- context [for_of _ _ ?w0] =>
        destruct (sync_loop_run endpoints w0) as (w' & -> & Hw')
    end; eauto.
Qed.

(** An endpoint for which the sync writes nothing keeps its entry. *)
Lemma synced_untouched (e0 : string) (endpoints : list string)
    (cs : list (string * gmap Key Response)) :
  sync_writes (Request_new e0) = None →
  store_entry API_CACHE_NAME (synced endpoints cs) (key_of (Request_new e0))
  = store_entry API_CACHE_NAME cs (key_of (Request_new e0)).
Proof.
  intros Hnone. unfold synced. revert cs.
  induction endpoints as [|e es IH]; intros cs; [done|]. simpl.
  rewrite IH. destruct (sync_writes (Request_new e)) as [r|] eqn:Hw; [|done].
  apply store_entry_insert_ne. intros Hkey.
  apply Request_new_key_inj in Hkey. congruence.
Qed.

(** An entry that already holds what the sync writes for its endpoint
    keeps holding it. *)
Lemma synced_stable (e0 : string) (r : Response) (endpoints : list string)
    (cs : list (string * gmap Key Response)) :
  sync_writes (Request_new e0) = Some r →
  store_entry API_CACHE_NAME cs (key_of (Request_new e0)) = Some r →
  store_entry API_CACHE_NAME (synced endpoints cs) (key_of (Request_new e0)) = Some r.
Proof.
  intros Hsome. unfold synced. revert cs.
  induction endpoints as [|e es IH]; intros cs Hentry; [done|]. simpl.
  apply IH. destruct (sync_writes (Request_new e)) as [r'|] eqn:Hw; [|done].
  destruct (decide (key_of (Request_new e) = key_of (Request_new e0))) as [Hkey|Hkey].
  - pose proof (Request_new_key_inj _ _ Hkey) as Hreq.
    rewrite Hreq in Hw. rewrite Hkey.
    assert (r' = r) as -> by congruence.
    apply store_entry_insert_eq. by eapply store_entry_has_store.
  - by rewrite store_entry_insert_ne.
Qed.

(** An endpoint of the list for which the sync writes a response ends
    with that response as its entry. *)
Lemma synced_written (e0 : string) (r : Response) (endpoints : list string)
    (cs : list (string * gmap Key Response)) :
  e0 ∈ endpoints →
  sync_writes (Request_new e0) = Some r →
  has_store API_CACHE_NAME cs = true →
  store_entry API_CACHE_NAME (synced endpoints cs) (key_of (Request_new e0)) = Some r.
Proof.
  intros Hin Hsome. revert cs.
  induction Hin as [e0 es|e0 e es Hin IH]; intros cs Hhas.
  - change (synced (e0 :: es) cs)
      with (synced es (match sync_writes (Request_new e0) with
                       | Some r => store_insert API_CACHE_NAME
                                     (key_of (Request_new e0)) r cs
                       | None => cs
                       end)).
    rewrite Hsome. apply synced_stable; [done|].
    by apply store_entry_insert_eq.
  - change (synced (e :: es) cs)
      with (synced es (match sync_writes (Request_new e) with
                       | Some r => store_insert API_CACHE_NAME
                                     (key_of (Request_new e)) r cs
                       | None => cs
                       end)).
    apply IH; [done|]. destruct (sync_writes (Request_new e)); [|done].
    by apply has_store_insert.
Qed.

(** C9, as the script has it: a background sync over a list of
    endpoints never lets an exception escape; an endpoint whose fetch
    answers with an ok status has its entry in the API store overwritten
    with the new response provided the store accepts the write; an
    endpoint whose fetch throws keeps its prior entry, and so does one
    whose write the store refuses. *)
Theorem doBackgroundSync_isolates_failures (endpoints : list string) (w : World) :
  fst (doBackgroundSync_over endpoints w) = Return tt ∧
  (∀ e r,
     e ∈ endpoints →
     net (Request_new e) = Resolves r → ok r = true →
     put_rejects (Request_new e) r = false →
     store_entry API_CACHE_NAME (caches (snd (doBackgroundSync_over endpoints w)))
       (key_of (Request_new e)) = Some r) ∧
  (∀ e err,
     net (Request_new e) = Rejects err →
     store_entry API_CACHE_NAME (caches (snd (doBackgroundSync_over endpoints w)))
       (key_of (Request_new e))
     = store_entry API_CACHE_NAME (caches w) (key_of (Request_new e))) ∧
  (∀ e r,
     net (Request_new e) = Resolves r →
     put_rejects (Request_new e) r = true →
     store_entry API_CACHE_NAME (caches (snd (doBackgroundSync_over endpoints w)))
       (key_of (Request_new e))
     = store_entry API_CACHE_NAME (caches w) (key_of (Request_new e))).
Proof.
  destruct (doBackgroundSync_over_run endpoints w) as (w' & -> & Hcaches).
  simpl. rewrite Hcaches. split; [done|]. split; [|split].
  - intros e r Hin Hnet Hok Haccept.
    apply synced_written; [done| |apply has_store_opened].
    unfold sync_writes. by rewrite Hnet, Hok, Haccept.
  - intros e err Hnet.
    rewrite synced_untouched, store_entry_opened; [done|].
    unfold sync_writes. by rewrite Hnet.
  - intros e r Hnet Hrefused.
    rewrite synced_untouched, store_entry_opened; [done|].
    unfold sync_writes. rewrite Hnet, Hrefused. by rewrite andb_false_r.
Qed.

End SyncProperties.

(** ** The properties on the concrete scenarios *)

Import Scenario.

(** C1 fails as stated: with the network down, populating the asset
    store rejects and yet the install event succeeds. *)
Lemma install_failure_not_signalled :
  fst (precache_assets (H:=down)
         (add_console (LogL, ["ZaqApp: Installing service worker..."]) fresh))
    = Throw "TypeError: Failed to fetch" ∧
  fst (install_event (H:=down) fresh) ≠ Failed.
Proof. split; [vm_compute; reflexivity | vm_compute; discriminate]. Qed.

Lemma install_absorbs_precache_failure_witness :
  fst (precache_assets (H:=down)
         (add_console (LogL, ["ZaqApp: Installing service worker..."]) fresh))
    = Throw "TypeError: Failed to fetch" ∧
  fst (install_event (H:=down) fresh) = Succeeded ∧
  skipWaiting_called (snd (install_event (H:=down) fresh)) = false.
Proof.
  split; [vm_compute; reflexivity|].
  destruct (install_absorbs_precache_failure (H:=down) fresh
              "TypeError: Failed to fetch") as (Hok & Hwait & _).
  - vm_compute; reflexivity.
  - split; [exact Hok | exact Hwait].
Defined.

Lemma handleApiRequest_failure_falls_back_witness :
  network_failed (net (Host:=down) posts_request) = true ∧
  fst (handleApiRequest (H:=down) posts_request api_cached) = Return (Some old_posts) ∧
  ∃ response,
    fst (handleApiRequest (H:=down) posts_request fresh) = Return (Some response) ∧
    body response = "[]" ∧
    headers response = [("Content-Type", "application/json")].
Proof.
  split; [reflexivity|]. split.
  - apply (proj1 (handleApiRequest_failure_falls_back (H:=down)
                    posts_request api_cached eq_refl)).
    vm_compute; reflexivity.
  - apply (proj1 (proj2 (handleApiRequest_failure_falls_back (H:=down)
                           posts_request fresh eq_refl))).
    reflexivity.
Defined.

Lemma handleApiRequest_failure_writes_nothing_witness :
  network_failed (net (Host:=down) posts_request) = true ∧
  caches (snd (handleApiRequest (H:=down) posts_request api_cached))
    = caches api_cached.
Proof.
  split; [reflexivity|].
  apply (handleApiRequest_failure_writes_nothing (H:=down)). reflexivity.
Defined.

Lemma handleNavigationRequest_cache_hit_witness :
  storage_match (caches index_only) (key_of index_request) = Some index_page ∧
  handleNavigationRequest (H:=posts_up) index_request index_only
    = (Return (Some index_page), index_only).
Proof.
  split; [vm_compute; reflexivity|].
  apply (handleNavigationRequest_cache_hit (H:=posts_up)).
  vm_compute; reflexivity.
Defined.

Lemma handleNavigationRequest_offline_chain_witness :
  fst (handleNavigationRequest (H:=down) page_request offline_and_index)
    = Return (Some offline_page) ∧
  fst (handleNavigationRequest (H:=down) page_request index_only)
    = Return (Some index_page).
Proof.
  split.
  - apply (proj1 (handleNavigationRequest_offline_chain (H:=down)
                    page_request offline_and_index eq_refl eq_refl)).
    vm_compute; reflexivity.
  - apply (proj2 (handleNavigationRequest_offline_chain (H:=down)
                    page_request index_only eq_refl eq_refl)).
    + vm_compute; reflexivity.
    + vm_compute; reflexivity.
Defined.

Lemma handleAppRequest_terminal_503_witness :
  ∃ response,
    fst (handleAppRequest (H:=down) image_request index_only)
      = Return (Some response) ∧
    status response = 503 ∧
    body response = "Offline - Service worker failed to fetch content".
Proof.
  apply (handleAppRequest_terminal_503 (H:=down) image_request index_only);
    vm_compute; reflexivity.
Defined.

(** The asset handler called directly, which the listener never does
    with such a request: for a request whose accept-hint is text/html,
    missing from the cache storage, with the network down, the offline
    page absent and the index page cached, it resolves with
    [undefined], where the navigation handler answers the same request
    with the index page.  The asset handler combines the two lookups
    with [||] on their promises, and a promise is truthy whatever it
    settles to. *)
Theorem handleAppRequest_html_fallback_skips_index :
  storage_match (caches index_only) (key_of html_asset_request) = None ∧
  network_failed (net (Host:=down) html_asset_request) = true ∧
  accept_hint_includes html_media_type html_asset_request = true ∧
  storage_match (caches index_only) (key_of (Request_new (H:=down) "./offline.html"))
    = None ∧
  storage_match (caches index_only) (key_of (Request_new (H:=down) "./index.html"))
    = Some index_page ∧
  fst (handleAppRequest (H:=down) html_asset_request index_only) = Return None ∧
  fst (handleNavigationRequest (H:=down) html_asset_request index_only)
    = Return (Some index_page).
Proof. repeat split; vm_compute; reflexivity. Qed.

(** C9 fails as stated: the posts endpoint answers with an ok status
    (206) while the users endpoint throws, the store refuses the
    response, and the entry of the posts endpoint is still the old
    one. *)
Lemma sync_refused_write_keeps_old_entry :
  net (Host:=posts_partial) (Request_new (H:=posts_partial) users_url)
    = Rejects "TypeError: Failed to fetch" ∧
  net (Host:=posts_partial) (Request_new (H:=posts_partial) posts_url)
    = Resolves partial_posts ∧
  ok partial_posts = true ∧
  store_entry API_CACHE_NAME
    (caches (snd (doBackgroundSync_over (H:=posts_partial)
                    [posts_url; users_url] api_cached)))
    (key_of (Request_new (H:=posts_partial) posts_url))
    ≠ Some partial_posts.
Proof. repeat split; try (vm_compute; reflexivity). vm_compute. discriminate. Qed.

Lemma doBackgroundSync_isolates_failures_witness :
  fst (doBackgroundSync_over (H:=posts_up) [posts_url; users_url] api_cached)
    = Return tt ∧
  store_entry API_CACHE_NAME
    (caches (snd (doBackgroundSync_over (H:=posts_up)
                    [posts_url; users_url] api_cached)))
    (key_of (Request_new (H:=posts_up) posts_url)) = Some new_posts ∧
  store_entry API_CACHE_NAME
    (caches (snd (doBackgroundSync_over (H:=posts_up)
                    [posts_url; users_url] api_cached)))
    (key_of (Request_new (H:=posts_up) users_url)) = Some old_users.
Proof.
  destruct (doBackgroundSync_isolates_failures (H:=posts_up)
              [posts_url; users_url] api_cached) as (Hret & Hok & Hthrow & _).
  split; [exact Hret|]. split.
  - apply Hok; [apply list_elem_of_here | reflexivity | reflexivity | reflexivity].
  - etrans; [apply (Hthrow users_url "TypeError: Failed to fetch"); reflexivity|].
    vm_compute; reflexivity.
Defined.

(** ** Further properties of the store operations *)

Section StorageFacts.

Lemma store_of_insert_other (name name' : string) (k : Key) (r : Response)
    (cs : list (string * gmap Key Response)) :
  name' ≠ name →
  store_of name' (store_insert name k r cs) = store_of name' cs.
Proof.
  intros Hne. induction cs as [|[n c] cs IH]; [done|]. simpl.
  destruct (String.eqb_spec n name) as [->|Hn]; simpl.
  - destruct (String.eqb_spec name name'); [congruence | done].
  - by rewrite IH.
Qed.

Lemma store_of_opened_other (name name' : string)
    (cs : list (string * gmap Key Response)) :
  name' ≠ name → store_of name' (opened name cs) = store_of name' cs.
Proof.
  intros Hne. unfold opened. destruct (has_store name cs); [done|].
  induction cs as [|[n c] cs IH]; simpl.
  - destruct (String.eqb_spec name name'); [congruence | done].
  - destruct (n =? name'); [done | apply IH].
Qed.

Lemma storage_match_opened (name : string) (k : Key)
    (cs : list (string * gmap Key Response)) :
  storage_match (opened name cs) k = storage_match cs k.
Proof.
  unfold opened. destruct (has_store name cs); [done|].
  induction cs as [|[n c] cs IH]; simpl; [done|].
  by destruct (c !! k).
Qed.

Lemma held_only_by_opened (name : string) (k : Key)
    (cs : list (string * gmap Key Response)) :
  held_only_by name k cs → held_only_by name k (opened name cs).
Proof.
  unfold held_only_by, opened. intros Hheld.
  destruct (has_store name cs); [done|].
  apply Forall_app. split; [done|]. apply Forall_singleton. by left.
Qed.

Lemma held_only_by_miss (name : string) (k : Key)
    (cs : list (string * gmap Key Response)) :
  storage_match cs k = None → held_only_by name k cs.
Proof.
  unfold held_only_by. induction cs as [|[n c] cs IH]; simpl; [constructor|].
  destruct (c !! k) eqn:Hc; [done|]. intros Hrest.
  constructor; [by right | by apply IH].
Qed.

(** Where only the store called [name] may hold the key, a write to that
    store is what a lookup through the whole storage finds. *)
Lemma storage_match_insert (name : string) (k : Key) (r : Response)
    (cs : list (string * gmap Key Response)) :
  held_only_by name k cs → has_store name cs = true →
  storage_match (store_insert name k r cs) k = Some r.
Proof.
  unfold held_only_by, has_store.
  induction cs as [|[n c] cs IH]; simpl; intros Hheld Hhas; [done|].
  apply Forall_cons in Hheld as [Hhead Htail]. simpl in Hhead.
  destruct (String.eqb_spec n name) as [->|Hn]; simpl.
  - by rewrite lookup_insert_eq.
  - destruct Hhead as [? | ->]; [done|]. by apply IH.
Qed.

End StorageFacts.

(** ** Further properties of the fetch handlers *)

Section HandlerRuns.
Context `{!Host}.

Ltac run_handler :=
  cbv beta delta [bind try_catch ret throw fetch caches_match caches_open
                  cache_put console_log console_warn console_error clone] iota.

(** *** handleApiRequest *)

Lemma handleApiRequest_on_success (request : Request) (w : World) (r : Response) :
  net request = Resolves r → ok r = true →
  ∃ w', handleApiRequest request w = (Return (Some r), w')
        ∧ caches w'
          = (if put_rejects request r then opened API_CACHE_NAME (caches w)
             else store_insert API_CACHE_NAME (key_of request) r
                    (opened API_CACHE_NAME (caches w)))
        ∧ network_calls w' = (network_calls w ++ [request])%list.
Proof.
  intros Hnet Hok. unfold handleApiRequest, opened. run_handler.
  rewrite Hnet, Hok. simpl.
  destruct (has_store API_CACHE_NAME (caches w)); simpl;
    destruct (put_rejects request r); simpl; eauto.
Qed.

Lemma handleApiRequest_on_failure_calls (request : Request) (w : World) :
  network_failed (net request) = true →
  network_calls (snd (handleApiRequest request w)) = (network_calls w ++ [request])%list.
Proof.
  intros Hfail. unfold handleApiRequest. run_handler.
  destruct (network_failed_cases _ Hfail) as [[err ->]|(r & -> & ->)]; simpl;
    by destruct (storage_match (caches w) (key_of request)).
Qed.

(** X1: The API handler goes to the network first on every path: it makes
    exactly one network call, for the request itself, and it always
    resolves with a response. *)
Theorem handleApiRequest_network_first (request : Request) (w : World) :
  (∃ response, fst (handleApiRequest request w) = Return (Some response)) ∧
  network_calls (snd (handleApiRequest request w)) = (network_calls w ++ [request])%list.
Proof.
  destruct (network_failed (net request)) eqn:Hfail.
  - split; [|by apply handleApiRequest_on_failure_calls].
    destruct (handleApiRequest_on_failure request w Hfail) as (w' & -> & _).
    eauto.
  - destruct (net request) as [err|r] eqn:Hnet; simpl in Hfail; [done|].
    apply negb_false_iff in Hfail.
    destruct (handleApiRequest_on_success request w r Hnet Hfail)
      as (w' & -> & _ & Hcalls).
    eauto.
Qed.

(** X2: An ok answer of the network is what the API handler returns, whether
    the store keeps the copy or refuses it; a refused write leaves every
    entry of every store as it was. *)
Theorem handleApiRequest_returns_network_response (request : Request) (w : World)
    (r : Response) (Hnet : net request = Resolves r) (Hok : ok r = true) :
  fst (handleApiRequest request w) = Return (Some r) ∧
  (put_rejects request r = true →
   ∀ name k, store_entry name (caches (snd (handleApiRequest request w))) k
             = store_entry name (caches w) k).
Proof.
  destruct (handleApiRequest_on_success request w r Hnet Hok)
    as (w' & -> & Hcaches & _).
  split; [done|]. intros Hrefused name k. simpl.
  rewrite Hcaches, Hrefused.
  destruct (decide (name = API_CACHE_NAME)) as [->|Hne].
  - apply store_entry_opened.
  - unfold store_entry. by rewrite store_of_opened_other.
Qed.

(** X3: When the store accepts it, the ok answer becomes the entry of the
    request in the API store; the other entries of that store and the
    other stores are left as they were. *)
Theorem handleApiRequest_stores_response (request : Request) (w : World)
    (r : Response) (Hnet : net request = Resolves r) (Hok : ok r = true)
    (Haccept : put_rejects request r = false) :
  store_entry API_CACHE_NAME (caches (snd (handleApiRequest request w)))
    (key_of request) = Some r ∧
  (∀ k, k ≠ key_of request →
     store_entry API_CACHE_NAME (caches (snd (handleApiRequest request w))) k
     = store_entry API_CACHE_NAME (caches w) k) ∧
  (∀ name, name ≠ API_CACHE_NAME →
     store_of name (caches (snd (handleApiRequest request w)))
     = store_of name (caches w)).
Proof.
  destruct (handleApiRequest_on_success request w r Hnet Hok)
    as (w' & -> & Hcaches & _).
  simpl. rewrite Hcaches, Haccept. split; [|split].
  - apply store_entry_insert_eq, has_store_opened.
  - intros k Hk. rewrite store_entry_insert_ne by done.
    apply store_entry_opened.
  - intros name Hne.
    by rewrite store_of_insert_other, store_of_opened_other.
Qed.

(** *** handleNavigationRequest *)

Lemma handleNavigationRequest_on_success (request : Request) (w : World)
    (r : Response) :
  storage_match (caches w) (key_of request) = None →
  net request = Resolves r → ok r = true →
  ∃ w', handleNavigationRequest request w = (Return (Some r), w')
        ∧ caches w'
          = (if put_rejects request r then opened CACHE_NAME (caches w)
             else store_insert CACHE_NAME (key_of request) r
                    (opened CACHE_NAME (caches w)))
        ∧ network_calls w' = (network_calls w ++ [request])%list.
Proof.
  intros Hmiss Hnet Hok. unfold handleNavigationRequest, opened. run_handler.
  rewrite Hmiss, Hnet, Hok. simpl.
  destruct (has_store CACHE_NAME (caches w)); simpl;
    destruct (put_rejects request r); simpl; eauto.
Qed.

(** X5: A navigation that misses the cache and gets an ok answer from the
    network returns that answer after one network call, and when the
    store accepts the copy, a lookup of the request now finds it. *)
Theorem handleNavigationRequest_fills_cache (request : Request) (w : World)
    (r : Response)
    (Hmiss : storage_match (caches w) (key_of request) = None)
    (Hnet : net request = Resolves r) (Hok : ok r = true) :
  fst (handleNavigationRequest request w) = Return (Some r) ∧
  network_calls (snd (handleNavigationRequest request w))
    = (network_calls w ++ [request])%list ∧
  (put_rejects request r = false →
   storage_match (caches (snd (handleNavigationRequest request w)))
     (key_of request) = Some r).
Proof.
  destruct (handleNavigationRequest_on_success request w r Hmiss Hnet Hok)
    as (w' & -> & Hcaches & Hcalls).
  simpl. split; [done|]. split; [done|]. intros Haccept.
  rewrite Hcaches, Haccept.
  apply storage_match_insert; [|apply has_store_opened].
  by apply held_only_by_opened, held_only_by_miss.
Qed.

(** X7: The navigation handler never rejects, and it makes at most one
    network call, for the request itself. *)
Theorem handleNavigationRequest_never_rejects (request : Request) (w : World) :
  (∃ answer, fst (handleNavigationRequest request w) = Return answer) ∧
  (network_calls (snd (handleNavigationRequest request w)) = network_calls w ∨
   network_calls (snd (handleNavigationRequest request w))
     = (network_calls w ++ [request])%list).
Proof.
  unfold handleNavigationRequest. run_handler.
  destruct (storage_match (caches w) (key_of request)); simpl; [eauto|].
  destruct (net request) as [err|r]; simpl.
  - destruct (storage_match (caches w) (key_of (Request_new "./offline.html")));
      simpl; eauto.
  - destruct (ok r); simpl.
    + destruct (has_store CACHE_NAME (caches w)); simpl;
        destruct (put_rejects request r); simpl; eauto.
    + destruct (storage_match (caches w) (key_of (Request_new "./offline.html")));
        simpl; eauto.
Qed.

(** X8: A navigation that misses the cache while the network call fails
    writes nothing to the stores, and it resolves to [undefined] when
    neither the offline page nor the index page is cached. *)
Theorem handleNavigationRequest_failure_keeps_storage (request : Request)
    (w : World)
    (Hmiss : storage_match (caches w) (key_of request) = None)
    (Hfail : network_failed (net request) = true) :
  caches (snd (handleNavigationRequest request w)) = caches w ∧
  (storage_match (caches w) (key_of (Request_new "./offline.html")) = None →
   storage_match (caches w) (key_of (Request_new "./index.html")) = None →
   fst (handleNavigationRequest request w) = Return None).
Proof.
  unfold handleNavigationRequest. run_handler. rewrite Hmiss.
  destruct (network_failed_cases _ Hfail) as [[err ->]|(r & -> & ->)]; simpl.
  - destruct (storage_match (caches w) (key_of (Request_new "./offline.html")));
      simpl; split; try done. by intros _ ->.
  - destruct (storage_match (caches w) (key_of (Request_new "./offline.html")));
      simpl; split; try done. by intros _ ->.
Qed.

(** *** handleAppRequest *)

(** X9: An asset request that has an entry in the cache storage is answered
    with that snapshot and the world is left as it was: no network call,
    no store write. *)
Theorem handleAppRequest_cache_hit (request : Request) (w : World)
    (cached : Response)
    (Hhit : storage_match (caches w) (key_of request) = Some cached) :
  handleAppRequest request w = (Return (Some cached), w).
Proof. unfold handleAppRequest. run_handler. by rewrite Hhit. Qed.

Lemma handleAppRequest_on_success (request : Request) (w : World) (r : Response) :
  storage_match (caches w) (key_of request) = None →
  net request = Resolves r → ok r = true →
  ∃ w', handleAppRequest request w = (Return (Some r), w')
        ∧ caches w'
          = (if put_rejects request r then opened CACHE_NAME (caches w)
             else store_insert CACHE_NAME (key_of request) r
                    (opened CACHE_NAME (caches w)))
        ∧ network_calls w' = (network_calls w ++ [request])%list.
Proof.
  intros Hmiss Hnet Hok. unfold handleAppRequest, opened. run_handler.
  rewrite Hmiss, Hnet, Hok. simpl.
  destruct (has_store CACHE_NAME (caches w)); simpl;
    destruct (put_rejects request r); simpl; eauto.
Qed.

(** X10: An asset request that misses the cache and gets an ok answer from
    the network returns that answer after one network call; when the
    store accepts the copy it becomes the entry of the request in the
    asset store, and the API store is not touched. *)
Theorem handleAppRequest_fills_cache (request : Request) (w : World)
    (r : Response)
    (Hmiss : storage_match (caches w) (key_of request) = None)
    (Hnet : net request = Resolves r) (Hok : ok r = true) :
  fst (handleAppRequest request w) = Return (Some r) ∧
  network_calls (snd (handleAppRequest request w))
    = (network_calls w ++ [request])%list ∧
  store_of API_CACHE_NAME (caches (snd (handleAppRequest request w)))
    = store_of API_CACHE_NAME (caches w) ∧
  (put_rejects request r = false →
   store_entry CACHE_NAME (caches (snd (handleAppRequest request w)))
     (key_of request) = Some r).
Proof.
  destruct (handleAppRequest_on_success request w r Hmiss Hnet Hok)
    as (w' & -> & Hcaches & Hcalls).
  simpl. split; [done|]. split; [done|]. rewrite Hcaches. split.
  - destruct (put_rejects request r);
      by rewrite ?store_of_insert_other, store_of_opened_other.
  - intros ->. apply store_entry_insert_eq, has_store_opened.
Qed.

(** X11: The asset handler never rejects, and when the request misses the
    cache and the network call fails it writes nothing to the stores. *)
Theorem handleAppRequest_never_rejects (request : Request) (w : World) :
  (∃ answer, fst (handleAppRequest request w) = Return answer) ∧
  (storage_match (caches w) (key_of request) = None →
   network_failed (net request) = true →
   caches (snd (handleAppRequest request w)) = caches w).
Proof.
  unfold handleAppRequest. run_handler.
  destruct (storage_match (caches w) (key_of request)); simpl;
    [split; [eauto | done]|].
  destruct (net request) as [err|r]; simpl.
  - destruct (accept_includes_html request); simpl; eauto.
  - destruct (ok r); simpl.
    + destruct (has_store CACHE_NAME (caches w)); simpl;
        destruct (put_rejects request r); simpl; split; eauto; done.
    + destruct (accept_includes_html request); simpl; eauto.
Qed.

(** *** The fetch listener *)

(** X13: The listener leaves a request to the browser exactly when its
    scheme is chrome-extension: or moz-extension:, whatever its host,
    mode or accept-hint; every other request is answered. *)
Theorem on_fetch_not_handled_iff (request : Request) :
  on_fetch request = notHandled ↔
  protocol (URL_parse (url request)) = "chrome-extension:" ∨
  protocol (URL_parse (url request)) = "moz-extension:".
Proof.
  unfold on_fetch.
  destruct (String.eqb_spec (protocol (URL_parse (url request))) "chrome-extension:")
    as [Hc|Hc]; simpl; [by split; [left|]|].
  destruct (String.eqb_spec (protocol (URL_parse (url request))) "moz-extension:")
    as [Hm|Hm]; simpl; [by split; [right|]|].
  split; [|intros [?|?]; done].
  repeat case_match; done.
Qed.

(** X14: A request that is neither an extension request, nor for the API
    host, nor a navigation, nor of the page's origin is answered network
    first: whatever the network answers is returned as it is, ok or not,
    and nothing is written to the stores; when the network call throws,
    the answer is the cache lookup of the request, [undefined] when
    there is none. *)
Theorem on_fetch_default_strategy (request : Request)
    (Hchrome : protocol (URL_parse (url request)) ≠ "chrome-extension:")
    (Hmoz : protocol (URL_parse (url request)) ≠ "moz-extension:")
    (Hhost : hostname (URL_parse (url request)) ≠ "jsonplaceholder.typicode.com")
    (Hmode : mode request ≠ "navigate")
    (Hhint : accept_includes_html request = false)
    (Horigin : origin (URL_parse (url request)) ≠ location_origin) :
  ∃ p,
    on_fetch request = respondWith p ∧
    ∀ w,
      (∀ r, net request = Resolves r →
            p w = (Return (Some r), add_network_call request w)) ∧
      (∀ err, net request = Rejects err →
              p w = (Return (storage_match (caches w) (key_of request)),
                     add_network_call request w)).
Proof.
  unfold on_fetch.
  apply String.eqb_neq in Hchrome, Hmoz, Hhost, Hmode, Horigin.
  rewrite Hchrome, Hmoz, Hhost, Hmode, Hhint, Horigin. simpl.
  eexists. split; [reflexivity|]. intros w. run_handler.
  split; [intros r -> | intros err ->]; reflexivity.
Qed.

End HandlerRuns.

(** *** Round trips through the stores *)

(** X4: What the API handler stored while the network was up is what it
    answers with when the network is down afterwards, provided no store
    other than the API store holds an entry for the request. *)
Theorem handleApiRequest_round_trip (online offline : Host) (request : Request)
    (w : World) (r : Response)
    (Hheld : held_only_by API_CACHE_NAME (key_of request) (caches w))
    (Hnet : net (Host:=online) request = Resolves r) (Hok : ok r = true)
    (Haccept : put_rejects (Host:=online) request r = false)
    (Hdown : network_failed (net (Host:=offline) request) = true) :
  fst (handleApiRequest (H:=offline) request
         (snd (handleApiRequest (H:=online) request w)))
  = Return (Some r).
Proof.
  destruct (handleApiRequest_on_success (H:=online) request w r Hnet Hok)
    as (w' & -> & Hcaches & _).
  simpl. rewrite Haccept in Hcaches.
  destruct (handleApiRequest_on_failure (H:=offline) request w' Hdown)
    as (w'' & -> & _).
  simpl. rewrite Hcaches, storage_match_insert; [done| |apply has_store_opened].
  by apply held_only_by_opened.
Qed.

(** X6: After a navigation was answered by the network and stored, the same
    navigation is answered from the cache, whatever the network does,
    without a network call. *)
Theorem handleNavigationRequest_round_trip (first later : Host)
    (request : Request) (w : World) (r : Response)
    (Hmiss : storage_match (caches w) (key_of request) = None)
    (Hnet : net (Host:=first) request = Resolves r) (Hok : ok r = true)
    (Haccept : put_rejects (Host:=first) request r = false) :
  handleNavigationRequest (H:=later) request
    (snd (handleNavigationRequest (H:=first) request w))
  = (Return (Some r), snd (handleNavigationRequest (H:=first) request w)).
Proof.
  destruct (handleNavigationRequest_on_success (H:=first) request w r
              Hmiss Hnet Hok) as (w' & -> & Hcaches & _).
  simpl. rewrite Haccept in Hcaches.
  assert (storage_match (caches w') (key_of request) = Some r) as Hhit.
  { rewrite Hcaches. apply storage_match_insert; [|apply has_store_opened].
    by apply held_only_by_opened, held_only_by_miss. }
  unfold handleNavigationRequest, bind, try_catch, caches_match, ret.
  by rewrite Hhit.
Qed.

(** ** Further properties of the install listener *)

Section InstallRuns.
Context `{!Host}.

(** X15: The install event never fails: whatever happens while the stores are
    populated, the promise handed to the host fulfils. *)
Theorem install_event_always_succeeds (w : World) :
  fst (install_event w) = Succeeded.
Proof.
  unfold install_event, waitUntil, on_install, bind, try_catch, console_log,
    skipWaiting.
  by destruct (Promise_all _ _) as [[results|err] w'].
Qed.

Lemma on_install_on_success (w : World) :
  fst (precache_assets
         (add_console (LogL, ["ZaqApp: Installing service worker..."]) w))
    = Return tt →
  on_install w
  = (Return tt,
     set_skipWaiting
       (add_console (LogL, ["ZaqApp: All files cached successfully (install)"])
          (snd (precache_api
                  (snd (precache_assets
                          (add_console
                             (LogL, ["ZaqApp: Installing service worker..."])
                             w))))))).
Proof.
  intros Hassets. unfold on_install.
  unfold bind at 1, console_log at 1, try_catch at 1, bind at 1.
  cbn [Promise_all].
  destruct (precache_assets _) as [c w2]. simpl in Hassets. subst c. simpl.
  by destruct (precache_api_fulfils w2) as (w3 & ->).
Qed.

(** X16: Failing to populate the API store is not fatal: as soon as the asset
    store was populated, [skipWaiting] is called, whatever the API
    endpoints answer; and [skipWaiting] is called in no other case. *)
Theorem install_skips_waiting_iff_assets_cached (w : World)
    (Hwaiting : skipWaiting_called w = false) :
  skipWaiting_called (snd (install_event w)) = true ↔
  fst (precache_assets
         (add_console (LogL, ["ZaqApp: Installing service worker..."]) w))
    = Return tt.
Proof.
  unfold install_event, waitUntil.
  destruct (fst (precache_assets _)) as [[]|err] eqn:Hassets.
  - by rewrite (on_install_on_success w Hassets).
  - destruct (on_install_on_failure w err Hassets) as (w' & -> & Hkeep).
    simpl. rewrite Hkeep, Hwaiting. by split.
Qed.

(** *** What install leaves in the asset store *)

Lemma request_for_addAll_caches (u : string) (w : World) :
  caches (snd (request_for_addAll u w)) = caches w.
Proof.
  unfold request_for_addAll, bind, fetch, ret, throw.
  destruct (net (Request_new u)) as [err|r]; [done|]. by destruct (ok r).
Qed.

Lemma requests_keep_caches (urls : list string) (w : World) :
  caches (snd (Promise_all (map request_for_addAll urls) w)) = caches w.
Proof.
  revert w. induction urls as [|u urls IH]; intros w; [done|].
  cbn [map Promise_all].
  pose proof (request_for_addAll_caches u w) as Hu.
  destruct (request_for_addAll u w) as [c w1]. specialize (IH w1).
  destruct (Promise_all _ w1) as [cs w2]. simpl in *.
  destruct c, cs; simpl; congruence.
Qed.

Lemma fold_insert_other (cache name : string) (rs : list (Request * Response))
    (cs : list (string * gmap Key Response)) :
  name ≠ cache →
  store_of name
    (fold_left (fun cs e => store_insert cache (key_of (fst e)) (snd e) cs) rs cs)
  = store_of name cs.
Proof.
  intros Hne. revert cs. induction rs as [|e rs IH]; intros cs; [done|].
  simpl. rewrite IH. by apply store_of_insert_other.
Qed.

(** [cache.addAll] leaves the other stores alone. *)
Lemma cache_addAll_other (cache name : string) (urls : list string) (w : World) :
  name ≠ cache →
  store_of name (caches (snd (cache_addAll cache urls w)))
  = store_of name (caches w).
Proof.
  intros Hne. unfold cache_addAll, bind, throw.
  pose proof (requests_keep_caches urls w) as Hkeep.
  destruct (Promise_all _ w) as [[rs|err] w1]; simpl in *; [|by rewrite Hkeep].
  destruct (existsb _ rs); simpl; [by rewrite Hkeep|].
  by rewrite fold_insert_other, Hkeep.
Qed.

Lemma precache_api_other (name : string) (w : World) :
  name ≠ API_CACHE_NAME →
  store_of name (caches (snd (precache_api w))) = store_of name (caches w).
Proof.
  intros Hne. unfold precache_api.
  unfold bind at 1, caches_open at 1.
  set (w1 := if has_store API_CACHE_NAME (caches w) then w
             else set_caches (caches w ++ [(API_CACHE_NAME, ∅)]) w).
  assert (store_of name (caches w1) = store_of name (caches w)) as Hopen.
  { pose proof (store_of_opened_other API_CACHE_NAME name (caches w) Hne) as Ho.
    unfold opened in Ho. subst w1.
    by destruct (has_store API_CACHE_NAME (caches w)). }
  replace (if has_store API_CACHE_NAME (caches w)
           then (Return API_CACHE_NAME, w)
           else (Return API_CACHE_NAME,
                 set_caches (caches w ++ [(API_CACHE_NAME, ∅)]) w))
    with (Return API_CACHE_NAME, w1)
    by (subst w1; by destruct (has_store API_CACHE_NAME (caches w))).
  unfold bind, console_log, try_catch, console_warn.
  pose proof (cache_addAll_other API_CACHE_NAME name API_ENDPOINTS
                (add_console (LogL, ["ZaqApp: Caching API endpoints..."]) w1) Hne)
    as Hadd.
  destruct (cache_addAll _ _ _) as [[[]|err] w2]; simpl in *; congruence.
Qed.

(** The responses [cache.addAll] has gathered for a list of storable
    URLs. *)
Lemma requests_all_ok (urls : list string) (w : World) :
  forallb storable urls = true →
  ∃ rs w',
    Promise_all (map request_for_addAll urls) w = (Return rs, w') ∧
    Forall2 (λ u e, fst e = Request_new u ∧ fetched_ok u = Some (snd e) ∧
                    put_rejects (fst e) (snd e) = false) urls rs.
Proof.
  revert w. induction urls as [|u urls IH]; intros w Hall.
  - exists [], w. split; [done | constructor].
  - simpl in Hall. apply andb_true_iff in Hall as [Hu Hrest].
    cbn [map Promise_all].
    unfold storable, fetched_ok in Hu.
    unfold request_for_addAll at 1, bind, fetch, ret, throw.
    destruct (net (Request_new u)) as [err|r] eqn:Hnet; [done|].
    destruct (ok r) eqn:Hok; [|done]. apply negb_true_iff in Hu.
    destruct (IH (add_network_call (Request_new u) w) Hrest)
      as (rs & w' & -> & Hrs).
    eexists _, w'. split; [reflexivity|].
    constructor; [|done]. simpl. unfold fetched_ok. by rewrite Hnet, Hok.
Qed.

Lemma fold_insert_stable (cache : string) (u0 : string) (r0 : Response)
    (urls : list string) (rs : list (Request * Response))
    (cs : list (string * gmap Key Response)) :
  Forall2 (λ u e, fst e = Request_new u ∧ fetched_ok u = Some (snd e) ∧
                  put_rejects (fst e) (snd e) = false) urls rs →
  fetched_ok u0 = Some r0 →
  store_entry cache cs (key_of (Request_new u0)) = Some r0 →
  store_entry cache
    (fold_left (fun cs e => store_insert cache (key_of (fst e)) (snd e) cs) rs cs)
    (key_of (Request_new u0)) = Some r0.
Proof.
  intros Hrs Hu0. revert cs.
  induction Hrs as [|u e urls rs (Hreq & Hfetched & _) _ IH]; intros cs Hentry;
    [done|].
  simpl. apply IH. rewrite Hreq.
  destruct (decide (key_of (Request_new u) = key_of (Request_new u0))) as [Hkey|Hkey].
  - pose proof (Request_new_key_inj _ _ Hkey) as Hsame.
    unfold fetched_ok in Hfetched, Hu0. rewrite Hsame in Hfetched.
    rewrite Hkey. assert (snd e = r0) as -> by congruence.
    apply store_entry_insert_eq. by eapply store_entry_has_store.
  - by rewrite store_entry_insert_ne.
Qed.

Lemma fold_insert_written (cache : string) (u0 : string)
    (urls : list string) (rs : list (Request * Response))
    (cs : list (string * gmap Key Response)) :
  Forall2 (λ u e, fst e = Request_new u ∧ fetched_ok u = Some (snd e) ∧
                  put_rejects (fst e) (snd e) = false) urls rs →
  u0 ∈ urls → has_store cache cs = true →
  store_entry cache
    (fold_left (fun cs e => store_insert cache (key_of (fst e)) (snd e) cs) rs cs)
    (key_of (Request_new u0)) = fetched_ok u0.
Proof.
  intros Hrs. revert cs.
  induction Hrs as [|u e urls rs (Hreq & Hfetched & Hacc) Hrs IH];
    intros cs Hin Hhas; [by apply elem_of_nil in Hin|].
  simpl. apply elem_of_cons in Hin as [->|Hin].
  - rewrite Hfetched.
    apply (fold_insert_stable cache u (snd e) urls rs); [done..|].
    rewrite Hreq. by apply store_entry_insert_eq.
  - apply IH; [done|]. by apply has_store_insert.
Qed.

Lemma precache_assets_on_success (w : World) :
  forallb storable urlsToCache = true →
  ∃ w', precache_assets w = (Return tt, w') ∧
        ∀ u, u ∈ urlsToCache →
             store_entry CACHE_NAME (caches w') (key_of (Request_new u))
             = fetched_ok u.
Proof.
  intros Hall. unfold precache_assets.
  unfold bind at 1, caches_open at 1.
  set (w1 := if has_store CACHE_NAME (caches w) then w
             else set_caches (caches w ++ [(CACHE_NAME, ∅)]) w).
  assert (has_store CACHE_NAME (caches w1) = true) as Hhas.
  { pose proof (has_store_opened CACHE_NAME (caches w)) as Ho.
    unfold opened in Ho. subst w1.
    by destruct (has_store CACHE_NAME (caches w)) eqn:E. }
  replace (if has_store CACHE_NAME (caches w)
           then (Return CACHE_NAME, w)
           else (Return CACHE_NAME,
                 set_caches (caches w ++ [(CACHE_NAME, ∅)]) w))
    with (Return CACHE_NAME, w1)
    by (subst w1; by destruct (has_store CACHE_NAME (caches w))).
  unfold bind at 1, console_log at 1, cache_addAll, bind.
  set (w2 := add_console (LogL, ["ZaqApp: Caching app files..."]) w1).
  pose proof (requests_keep_caches urlsToCache w2) as Hkeep.
  destruct (requests_all_ok urlsToCache w2 Hall) as (rs & w3 & Hrun & Hrs).
  rewrite Hrun in *. simpl in Hkeep.
  assert (existsb (λ e, put_rejects (fst e) (snd e)) rs = false) as ->.
  { clear -Hrs. induction Hrs as [|u e urls rs (_ & _ & Hacc) _ IH]; [done|].
    simpl. by rewrite Hacc, IH. }
  eexists. split; [reflexivity|]. intros u Hu. simpl.
  apply (fold_insert_written CACHE_NAME u urlsToCache rs); [done..|].
  by rewrite Hkeep.
Qed.

(** X17: When every URL of the asset list is answered with an ok response
    that the store accepts, the install event ends with [skipWaiting]
    called and with each of these URLs holding its response in the
    asset store, whether or not the API endpoints could be cached. *)
Theorem install_provisions_asset_store (w : World)
    (Hall : forallb storable urlsToCache = true) :
  skipWaiting_called (snd (install_event w)) = true ∧
  ∀ u, u ∈ urlsToCache →
       store_entry CACHE_NAME (caches (snd (install_event w)))
         (key_of (Request_new u))
       = fetched_ok u.
Proof.
  unfold install_event, waitUntil.
  set (w1 := add_console (LogL, ["ZaqApp: Installing service worker..."]) w).
  destruct (precache_assets_on_success w1 Hall) as (w2 & Hrun & Hentries).
  assert (fst (precache_assets w1) = Return tt) as Hassets by by rewrite Hrun.
  rewrite (on_install_on_success w Hassets). fold w1. rewrite Hrun. simpl.
  split; [done|]. intros u Hu. unfold store_entry.
  rewrite precache_api_other by done. by apply Hentries.
Qed.

End InstallRuns.

(** ** Further properties of the activate listener *)

Section ActivateRuns.

Lemma delete_all_calls (names : list string) (w : World) :
  network_calls (snd (Promise_all (map delete_old_cache names) w))
  = network_calls w.
Proof.
  revert w. induction names as [|n names IH]; intros w; [done|].
  cbn [map Promise_all].
  unfold delete_old_cache at 1, bind at 1, console_log at 1, caches_delete at 1.
  match goal with
  | |- context [Promise_all _ ?w0] =>
      specialize (IH w0); destruct (Promise_all _ w0) as [[l|err] w2]
  end; simpl in *; done.
Qed.

(** X19: Activation makes no network call and ends with the clients
    claimed. *)
Theorem activate_claims_without_network (w : World) :
  clients_claimed (snd (activate_event w)) = true ∧
  network_calls (snd (activate_event w)) = network_calls w.
Proof.
  unfold activate_event, waitUntil, on_activate.
  cbv beta delta [bind try_catch ret console_log console_error caches_keys
                  clients_claim] iota.
  match goal with
  | |- context [Promise_all (map delete_old_cache ?ns) ?w0] =>
      pose proof (delete_all_calls ns w0) as Hcalls;
      destruct (delete_all ns w0) as (results & w1 & Hrun & _)
  end.
  rewrite Hrun in *. simpl in *. by rewrite Hcalls.
Qed.

(** X20: After activation every store that is left has a current name, and a
    second activation changes nothing in the storage. *)
Theorem activate_idempotent (w : World) :
  Forall current_store (store_names (caches (snd (activate_event w)))) ∧
  caches (snd (activate_event (snd (activate_event w))))
    = caches (snd (activate_event w)).
Proof.
  unfold activate_event, waitUntil.
  destruct (on_activate_caches w) as (w1 & -> & Hcaches1 & _). simpl.
  destruct (on_activate_caches w1) as (w2 & -> & Hcaches2 & _). simpl.
  split.
  - rewrite Hcaches1. unfold store_names. apply Forall_fmap, Forall_forall.
    by intros e [He _]%list_elem_of_filter.
  - rewrite Hcaches2, Hcaches1. apply list_filter_filter_l. done.
Qed.

End ActivateRuns.

(** ** Further properties of the background sync *)

Section SyncRuns.
Context `{!Host}.

Lemma sync_endpoint_calls (cache : string) (request : Request) (w : World) :
  network_calls (snd (sync_endpoint cache request w))
  = (network_calls w ++ [request])%list.
Proof.
  unfold sync_endpoint.
  cbv beta delta [bind try_catch ret fetch cache_put console_log clone] iota.
  destruct (net request) as [err|r]; [done|].
  destruct (ok r); simpl; [|done].
  by destruct (put_rejects request r).
Qed.

Lemma sync_loop_calls (requests : list Request) (w : World) :
  network_calls (snd (for_of requests (sync_endpoint API_CACHE_NAME) w))
  = (network_calls w ++ requests)%list.
Proof.
  revert w. induction requests as [|q qs IH]; intros w.
  - simpl. by rewrite app_nil_r.
  - cbn [for_of]. unfold bind at 1.
    pose proof (sync_endpoint_calls API_CACHE_NAME q w) as Hq.
    destruct (sync_endpoint_run q w) as (w1 & Hrun & _).
    rewrite Hrun in *. simpl in Hq.
    rewrite IH, Hq. by rewrite <- app_assoc.
Qed.

Lemma synced_other (name : string) (endpoints : list string)
    (cs : list (string * gmap Key Response)) :
  name ≠ API_CACHE_NAME → store_of name (synced endpoints cs) = store_of name cs.
Proof.
  intros Hne. unfold synced. revert cs.
  induction endpoints as [|e es IH]; intros cs; [done|]. simpl.
  rewrite IH. destruct (sync_writes (Request_new e)); [|done].
  by apply store_of_insert_other.
Qed.

(** A key that is the key of no listed endpoint keeps its entry. *)
Lemma synced_other_key (k : Key) (endpoints : list string)
    (cs : list (string * gmap Key Response)) :
  (∀ e, e ∈ endpoints → key_of (Request_new e) ≠ k) →
  store_entry API_CACHE_NAME (synced endpoints cs) k
  = store_entry API_CACHE_NAME cs k.
Proof.
  unfold synced. revert cs.
  induction endpoints as [|e es IH]; intros cs Hkeys; [done|]. simpl.
  rewrite IH by (intros e' He'; apply Hkeys; by right).
  destruct (sync_writes (Request_new e)); [|done].
  apply store_entry_insert_ne, Hkeys. by left.
Qed.

Lemma doBackgroundSync_over_calls (endpoints : list string) (w : World) :
  network_calls (snd (doBackgroundSync_over endpoints w))
  = (network_calls w ++ map Request_new endpoints)%list.
Proof.
  unfold doBackgroundSync_over, try_catch, bind at 1, caches_open.
  destruct (has_store API_CACHE_NAME (caches w));
    match goal with
    | |- context [for_of ?qs _ ?w0] =>
        pose proof (sync_loop_calls qs w0) as Hcalls;
        destruct (sync_loop_run endpoints w0) as (w' & Hrun & _)
    end; rewrite Hrun in *; simpl in *; done.
Qed.

(** X21: A background sync makes exactly one network call per endpoint, in
    the order of the list, and it touches no store but the API store. *)
Theorem doBackgroundSync_fetches_each_endpoint_once (endpoints : list string)
    (w : World) :
  network_calls (snd (doBackgroundSync_over endpoints w))
    = (network_calls w ++ map Request_new endpoints)%list ∧
  ∀ name, name ≠ API_CACHE_NAME →
          store_of name (caches (snd (doBackgroundSync_over endpoints w)))
          = store_of name (caches w).
Proof.
  split; [apply doBackgroundSync_over_calls|].
  intros name Hne.
  destruct (doBackgroundSync_over_run endpoints w) as (w' & -> & Hcaches).
  simpl. rewrite Hcaches, synced_other by done.
  by apply store_of_opened_other.
Qed.

(** X22: A background sync writes only under the keys of its endpoints, and
    only ok answers: every other key of the API store keeps its entry,
    and so does an endpoint answered with a status that is not ok. *)
Theorem doBackgroundSync_writes_only_ok_endpoints (endpoints : list string)
    (w : World) :
  (∀ k, (∀ e, e ∈ endpoints → key_of (Request_new e) ≠ k) →
        store_entry API_CACHE_NAME
          (caches (snd (doBackgroundSync_over endpoints w))) k
        = store_entry API_CACHE_NAME (caches w) k) ∧
  (∀ e r, net (Request_new e) = Resolves r → ok r = false →
          store_entry API_CACHE_NAME
            (caches (snd (doBackgroundSync_over endpoints w)))
            (key_of (Request_new e))
          = store_entry API_CACHE_NAME (caches w) (key_of (Request_new e))).
Proof.
  destruct (doBackgroundSync_over_run endpoints w) as (w' & -> & Hcaches).
  simpl. rewrite Hcaches. split.
  - intros k Hkeys. rewrite synced_other_key by done. apply store_entry_opened.
  - intros e r Hnet Hok. rewrite synced_untouched, store_entry_opened; [done|].
    unfold sync_writes. by rewrite Hnet, Hok.
Qed.

(** X23: The sync listener reacts to the tag background-sync only; for that
    tag the promise it hands to the host never rejects and refetches
    the fixed API endpoints. *)
Theorem on_sync_only_background_sync (tag : string) :
  (tag ≠ "background-sync" → on_sync tag = None) ∧
  (tag = "background-sync" →
   ∃ p, on_sync tag = Some p ∧
        ∀ w, fst (p w) = Return tt ∧
             network_calls (snd (p w))
             = (network_calls w ++ map Request_new API_ENDPOINTS)%list).
Proof.
  unfold on_sync. split.
  - intros Hne%String.eqb_neq. by rewrite Hne.
  - intros ->. eexists. split; [reflexivity|]. intros w.
    unfold bind, console_log, doBackgroundSync.
    set (w1 := add_console (LogL, ["ZaqApp: Background sync triggered"]) w).
    pose proof (doBackgroundSync_over_calls API_ENDPOINTS w1) as Hcalls.
    destruct (doBackgroundSync_over_run API_ENDPOINTS w1) as (w' & Hrun & _).
    rewrite Hrun in *. by simpl in *.
Qed.

End SyncRuns.

(** ** Install is all or nothing for the asset list *)

Section InstallAtomic.
Context `{!Host}.

Lemma on_install_on_failure_run (w : World) (err : string) :
  fst (precache_assets
         (add_console (LogL, ["ZaqApp: Installing service worker..."]) w))
    = Throw err →
  on_install w
  = (Return tt,
     add_console (ErrorL, ["ZaqApp: Cache failed during install:"; err])
       (snd (precache_api
               (snd (precache_assets
                       (add_console
                          (LogL, ["ZaqApp: Installing service worker..."])
                          w)))))).
Proof.
  intros Hassets. unfold on_install.
  unfold bind at 1, console_log at 1, try_catch at 1, bind at 1.
  cbn [Promise_all].
  destruct (precache_assets _) as [c w2]. simpl in Hassets. subst c. simpl.
  by destruct (precache_api_fulfils w2) as (w3 & ->).
Qed.

Lemma cache_addAll_on_reject (cache : string) (urls : list string) (w : World)
    (err : string) :
  fst (cache_addAll cache urls w) = Throw err →
  caches (snd (cache_addAll cache urls w)) = caches w.
Proof.
  unfold cache_addAll, bind, throw.
  pose proof (requests_keep_caches urls w) as Hkeep.
  destruct (Promise_all (map request_for_addAll urls) w) as [[rs|e] w1];
    simpl in *; [|done].
  by destruct (existsb _ rs).
Qed.

Lemma precache_assets_on_reject (w : World) (err : string) (k : Key) :
  fst (precache_assets w) = Throw err →
  store_entry CACHE_NAME (caches (snd (precache_assets w))) k
  = store_entry CACHE_NAME (caches w) k.
Proof.
  unfold precache_assets, bind, caches_open, console_log.
  pose proof (store_entry_opened CACHE_NAME k (caches w)) as Hopen.
  unfold opened in Hopen.
  destruct (has_store CACHE_NAME (caches w));
    match goal with
    | |- context [cache_addAll ?c ?us ?w0] =>
        pose proof (cache_addAll_on_reject c us w0) as Hkeep;
        destruct (cache_addAll c us w0) as [[[]|e] w1]
    end; cbn [fst snd] in *; intros Hfail; try discriminate;
    by rewrite (Hkeep e eq_refl).
Qed.

(** X18: If a single URL of the asset list cannot be fetched (the call
    throws or the answer is not ok), install stores none of the assets:
    every entry of the asset store is as it was before, and
    [skipWaiting] is not called. *)
Theorem install_missing_asset_stores_nothing (w : World) (u : string)
    (Hin : u ∈ urlsToCache)
    (Hfail : network_failed (net (Request_new u)) = true) :
  skipWaiting_called (snd (install_event w)) = skipWaiting_called w ∧
  ∀ k, store_entry CACHE_NAME (caches (snd (install_event w))) k
       = store_entry CACHE_NAME (caches w) k.
Proof.
  set (w1 := add_console (LogL, ["ZaqApp: Installing service worker..."]) w).
  destruct (precache_assets_rejects u Hin Hfail w1) as (err & Herr).
  split.
  - destruct (on_install_on_failure w err Herr) as (w' & Hrun & Hkeep).
    unfold install_event, waitUntil. by rewrite Hrun.
  - intros k. unfold install_event, waitUntil.
    rewrite (on_install_on_failure_run w err Herr). fold w1. simpl.
    unfold store_entry at 1. rewrite precache_api_other by done.
    fold (store_entry CACHE_NAME (caches (snd (precache_assets w1))) k).
    by rewrite (precache_assets_on_reject w1 err k Herr).
Qed.

End InstallAtomic.

(** ** The further properties on concrete scenarios *)

Lemma handleApiRequest_returns_network_response_witness :
  fst (handleApiRequest (H:=posts_partial) posts_request api_cached)
    = Return (Some partial_posts) ∧
  store_entry API_CACHE_NAME
    (caches (snd (handleApiRequest (H:=posts_partial) posts_request api_cached)))
    ("GET", posts_url) = Some old_posts.
Proof.
  destruct (handleApiRequest_returns_network_response (H:=posts_partial)
              posts_request api_cached partial_posts eq_refl eq_refl)
    as [Hret Hkeep].
  split; [exact Hret|].
  etrans; [apply Hkeep; reflexivity|]. vm_compute; reflexivity.
Defined.

Lemma handleApiRequest_stores_response_witness :
  store_entry API_CACHE_NAME
    (caches (snd (handleApiRequest (H:=posts_up) posts_request api_cached)))
    (key_of posts_request) = Some new_posts.
Proof.
  apply (handleApiRequest_stores_response (H:=posts_up) posts_request api_cached
           new_posts eq_refl eq_refl eq_refl).
Defined.

Lemma handleApiRequest_round_trip_witness :
  fst (handleApiRequest (H:=down) posts_request
         (snd (handleApiRequest (H:=posts_up) posts_request api_cached)))
  = Return (Some new_posts).
Proof.
  apply (handleApiRequest_round_trip posts_up down posts_request api_cached
           new_posts); try reflexivity.
  unfold held_only_by.
  apply Forall_cons_2; [right; vm_compute; reflexivity|].
  apply Forall_cons_2; [left; reflexivity|].
  apply Forall_nil_2.
Defined.

Lemma handleNavigationRequest_fills_cache_witness :
  fst (handleNavigationRequest (H:=Online.site_up) page_request index_only)
    = Return (Some Online.missing_page) ∧
  storage_match
    (caches (snd (handleNavigationRequest (H:=Online.site_up)
                    page_request index_only)))
    (key_of page_request) = Some Online.missing_page.
Proof.
  destruct (handleNavigationRequest_fills_cache (H:=Online.site_up)
              page_request index_only Online.missing_page)
    as (Hret & _ & Hstored); try (vm_compute; reflexivity).
  split; [exact Hret | apply Hstored; reflexivity].
Defined.

Lemma handleNavigationRequest_round_trip_witness :
  fst (handleNavigationRequest (H:=down) page_request
         (snd (handleNavigationRequest (H:=Online.site_up)
                 page_request index_only)))
  = Return (Some Online.missing_page).
Proof.
  rewrite (handleNavigationRequest_round_trip Online.site_up down page_request
             index_only Online.missing_page); try (vm_compute; reflexivity).
Defined.

Lemma handleNavigationRequest_failure_keeps_storage_witness :
  caches (snd (handleNavigationRequest (H:=down) page_request fresh)) = [] ∧
  fst (handleNavigationRequest (H:=down) page_request fresh) = Return None.
Proof.
  destruct (handleNavigationRequest_failure_keeps_storage (H:=down)
              page_request fresh eq_refl eq_refl) as [Hkeep Hnone].
  split; [exact Hkeep | apply Hnone; reflexivity].
Defined.

Lemma handleAppRequest_cache_hit_witness :
  handleAppRequest (H:=down) Online.logo_request Online.logo_cached
  = (Return (Some Online.logo), Online.logo_cached).
Proof.
  apply (handleAppRequest_cache_hit (H:=down)). vm_compute; reflexivity.
Defined.

Lemma handleAppRequest_fills_cache_witness :
  fst (handleAppRequest (H:=Online.site_up) Online.logo_request fresh)
    = Return (Some Online.logo) ∧
  store_entry CACHE_NAME
    (caches (snd (handleAppRequest (H:=Online.site_up) Online.logo_request fresh)))
    (key_of Online.logo_request) = Some Online.logo.
Proof.
  destruct (handleAppRequest_fills_cache (H:=Online.site_up)
              Online.logo_request fresh Online.logo eq_refl eq_refl eq_refl)
    as (Hret & _ & _ & Hstored).
  split; [exact Hret | apply Hstored; reflexivity].
Defined.

Lemma handleAppRequest_never_rejects_witness :
  caches (snd (handleAppRequest (H:=down) Online.logo_request index_only))
  = caches index_only.
Proof.
  apply (proj2 (handleAppRequest_never_rejects (H:=down)
                  Online.logo_request index_only));
    vm_compute; reflexivity.
Defined.

Lemma on_fetch_default_strategy_witness :
  ∃ p,
    on_fetch (H:=Online.site_up) Online.library_request = respondWith p ∧
    fst (p fresh) = Return (Some Online.not_found) ∧
    caches (snd (p fresh)) = [].
Proof.
  destruct (on_fetch_default_strategy (H:=Online.site_up) Online.library_request)
    as (p & Hp & Hrun); try (vm_compute; congruence).
  exists p. split; [exact Hp|].
  destruct (Hrun fresh) as [Hresolved _].
  rewrite (Hresolved Online.not_found eq_refl). split; reflexivity.
Defined.

Lemma install_skips_waiting_iff_assets_cached_witness :
  skipWaiting_called (snd (install_event (H:=Online.assets_up) fresh)) = true.
Proof.
  apply (install_skips_waiting_iff_assets_cached (H:=Online.assets_up) fresh);
    vm_compute; reflexivity.
Defined.

Lemma install_provisions_asset_store_witness :
  store_entry CACHE_NAME
    (caches (snd (install_event (H:=Online.assets_up) fresh)))
    ("GET", "https://zaq.example/offline.html")
  = Some (mkResponse 200 "OK" [] "https://zaq.example/offline.html").
Proof.
  destruct (install_provisions_asset_store (H:=Online.assets_up) fresh)
    as [_ Hentries]; [vm_compute; reflexivity|].
  etrans; [apply (Hentries "./offline.html")|vm_compute; reflexivity].
  unfold urlsToCache. repeat (first [apply list_elem_of_here | apply list_elem_of_further]).
Defined.

Lemma doBackgroundSync_writes_only_ok_endpoints_witness :
  store_entry API_CACHE_NAME
    (caches (snd (doBackgroundSync_over (H:=posts_up) [posts_url] api_cached)))
    ("GET", users_url) = Some old_users.
Proof.
  destruct (doBackgroundSync_writes_only_ok_endpoints (H:=posts_up)
              [posts_url] api_cached) as [Hother _].
  etrans; [apply Hother|vm_compute; reflexivity].
  intros e He. apply list_elem_of_singleton in He as ->. vm_compute. congruence.
Defined.

Lemma doBackgroundSync_fetches_each_endpoint_once_witness :
  store_of CACHE_NAME
    (caches (snd (doBackgroundSync_over (H:=posts_up) [posts_url; users_url]
                    index_only)))
  = store_of CACHE_NAME (caches index_only).
Proof.
  apply (proj2 (doBackgroundSync_fetches_each_endpoint_once (H:=posts_up)
                  [posts_url; users_url] index_only)).
  vm_compute. congruence.
Defined.

Lemma on_sync_only_background_sync_witness :
  on_sync (H:=down) "periodic-sync" = None.
Proof.
  apply (proj1 (on_sync_only_background_sync (H:=down) "periodic-sync")).
  vm_compute. congruence.
Defined.

Lemma install_missing_asset_stores_nothing_witness :
  skipWaiting_called (snd (install_event (H:=posts_up) index_only)) = false ∧
  store_entry CACHE_NAME (caches (snd (install_event (H:=posts_up) index_only)))
    ("GET", "https://zaq.example/index.html") = Some index_page.
Proof.
  destruct (install_missing_asset_stores_nothing (H:=posts_up) index_only
              "./index.html") as [Hwait Hentries].
  - unfold urlsToCache. apply list_elem_of_further, list_elem_of_here.
  - reflexivity.
  - split; [exact Hwait|].
    etrans; [apply Hentries | vm_compute; reflexivity].
Defined.

Lemma handleAppRequest_html_fallback_witness :
  fst (handleAppRequest (H:=down) html_asset_request offline_and_index)
    = Return (Some offline_page) ∧
  fst (handleAppRequest (H:=down) html_asset_request fresh) = Return None.
Proof.
  split.
  - etrans; [apply (handleAppRequest_html_fallback (H:=down));
             vm_compute; reflexivity|].
    vm_compute; reflexivity.
  - etrans; [apply (handleAppRequest_html_fallback (H:=down));
             vm_compute; reflexivity|].
    vm_compute; reflexivity.
Defined.

